(** * fifth-pms: contacts, units and leases

    A shallow embedding of the core of [pms_backend/core]: the three models
    of [models.py] with their overridden [save] methods, the lease
    serializers of [serializers.py] and the dashboard of [views.py].

    The database is an explicit store of three tables keyed by primary key.
    A model method is a computation over that store which either returns a
    value or raises; an exception leaves the store as it was when it was
    raised (the views run without a surrounding transaction). *)

From Stdlib Require Import ZArith String Ascii List Bool Lia.
From Stdlib Require Import DecimalString SpecFloat.
From stdpp Require Import base option gmap fin_maps.

Local Open Scope string_scope.
Local Open Scope Z_scope.

(** ** Data model ([models.py]) *)

Module Contact.

(** [Contact.ContactType] *)
Inductive ContactType := LANDLORD | TENANT.

#[global] Instance ContactType_eq_dec : EqDecision ContactType.
Proof. solve_decision. Defined.

(** [Contact]; the two timestamps are maintained by the framework and
    read by nothing modelled here. *)
Record t := mk {
  name : string;
  contact_type : ContactType;
  email : string;
  phone : string;
  address : string
}.

End Contact.

Module Unit.

(** [Unit.UnitType] *)
Inductive UnitType := APARTMENT | HOUSE | CONDO | COMMERCIAL | OTHER.

(** [Unit.UnitStatus] *)
Inductive UnitStatus := VACANT | OCCUPIED | MAINTENANCE.

#[global] Instance UnitStatus_eq_dec : EqDecision UnitStatus.
Proof. solve_decision. Defined.

(** [Unit]; [value] is a two-place decimal, kept in hundredths; [owner] is
    the foreign key, the primary key of a [Contact]. *)
Record t := mk {
  unit_number : string;
  type : UnitType;
  location : string;
  value : Z;
  status : UnitStatus;
  owner : nat
}.

Definition set_status (st : UnitStatus) (u : t) : t :=
  mk (unit_number u) (type u) (location u) (value u) st (owner u).

End Unit.

(** A [datetime.date]. *)
Record date := Date { year : Z; month : Z; day : Z }.

Module Lease.

(** [Lease.PaymentFrequency] *)
Inductive PaymentFrequency := MONTHLY | QUARTERLY | SEMI_ANNUAL | ANNUAL.

#[global] Instance PaymentFrequency_eq_dec : EqDecision PaymentFrequency.
Proof. solve_decision. Defined.

(** [Lease]; [unit], [tenant] and [landlord] are foreign keys,
    [rent_amount] is kept in hundredths. *)
Record t := mk {
  unit : nat;
  tenant : nat;
  landlord : nat;
  start_date : option date;
  duration : Z;
  rent_amount : Z;
  payment_frequency : PaymentFrequency
}.

End Lease.

(** The three tables. *)
Record Store := mkStore {
  contacts : gmap nat Contact.t;
  units : gmap nat Unit.t;
  leases : gmap nat Lease.t
}.

Definition set_units (us : gmap nat Unit.t) (s : Store) : Store :=
  mkStore (contacts s) us (leases s).

Definition set_leases (ls : gmap nat Lease.t) (s : Store) : Store :=
  mkStore (contacts s) (units s) ls.

(** ** Exceptions and the store monad *)

Inductive error :=
| ValueError (msg : string)
| ValidationError (key msg : string)
| DoesNotExist (model : string)
| FieldError (keyword : string)
| ZeroDivisionError
| OverflowError
| Http404.

Inductive result (A : Type) :=
| Ok (a : A)
| Raise (e : error).
Arguments Ok {A} a.
Arguments Raise {A} e.

(** A computation reads and writes the store and may raise. *)
Definition M (A : Type) : Type := Store -> Store * result A.

Definition ret {A} (a : A) : M A := fun s => (s, Ok a).

Definition raise {A} (e : error) : M A := fun s => (s, Raise e).

Definition bind {A B} (m : M A) (k : A -> M B) : M B :=
  fun s => match m s with
           | (s', Ok a) => k a s'
           | (s', Raise e) => (s', Raise e)
           end.

Definition lift {A} (r : result A) : M A := fun s => (s, r).

Definition get_store : M Store := fun s => (s, Ok s).

Definition put_store (s' : Store) : M ()%type := fun _ => (s', Ok tt).

Declare Scope db_scope.
Delimit Scope db_scope with db.
Notation "'let!' x ':=' m 'in' k" := (bind m (fun x => k))
  (at level 10, x name, m at level 100, k at level 200) : db_scope.
Notation "m ';;;' k" := (bind m (fun _ => k))
  (at level 100, k at level 200, right associativity) : db_scope.
Local Open Scope db_scope.

(** [when c m]: [if c: m] *)
Definition when (c : bool) (m : M ()%type) : M ()%type :=
  if c then m else ret tt.

(** Following a foreign key: the related row, or the model's
    [DoesNotExist] when there is none. *)
Definition get_contact (pk : nat) : M Contact.t :=
  fun s => match contacts s !! pk with
           | Some c => (s, Ok c)
           | None => (s, Raise (DoesNotExist "Contact"))
           end.

Definition get_unit (pk : nat) : M Unit.t :=
  fun s => match units s !! pk with
           | Some u => (s, Ok u)
           | None => (s, Raise (DoesNotExist "Unit"))
           end.

(** The key an auto-incrementing primary key column hands out: a positive
    one that no row of the table has. *)
Definition next_pk {A} (table : gmap nat A) : nat :=
  fresh ({[0%nat]} ∪ dom table).

(** [models.Model.save]: an instance without primary key is inserted under
    a new one, an instance with primary key replaces the row of that key.
    The primary key of the written row is returned. What the database
    checks of the columns on the write (NOT NULL, UNIQUE, the digits of a
    decimal) is not modelled: the rows written are taken to satisfy it. *)
Definition Model_save {A} (pk : option nat) (row : A) (table : gmap nat A)
  : gmap nat A * nat :=
  match pk with
  | Some k => (<[k := row]> table, k)
  | None => let k := next_pk table in (<[k := row]> table, k)
  end.

(** ** [Unit.save] *)

Definition msg_owner_landlord : string := "Unit owner must be a landlord".

Definition Unit_save (pk : option nat) (u : Unit.t) : M nat :=
  let! o := get_contact (Unit.owner u) in
  if negb (bool_decide (Contact.contact_type o = Contact.LANDLORD))
  then raise (ValueError msg_owner_landlord)
  else
    let! s := get_store in
    let (us, k) := Model_save pk u (units s) in
    put_store (set_units us s) ;;;
    ret k.

(** ** [Lease.save] *)

Definition msg_tenant_type : string := "Tenant must be of type 'Tenant'".
Definition msg_landlord_type : string := "Landlord must be of type 'Landlord'".
Definition msg_landlord_owner : string :=
  "Landlord of the lease must be the owner of the unit".

(** Model instances compare equal when their primary keys do, so
    [self.landlord != self.unit.owner] compares the two keys once both rows
    have been fetched. *)
Definition Lease_save (pk : option nat) (l : Lease.t) : M nat :=
  let! t := get_contact (Lease.tenant l) in
  if negb (bool_decide (Contact.contact_type t = Contact.TENANT))
  then raise (ValueError msg_tenant_type)
  else
    let! ll := get_contact (Lease.landlord l) in
    if negb (bool_decide (Contact.contact_type ll = Contact.LANDLORD))
    then raise (ValueError msg_landlord_type)
    else
      let! u := get_unit (Lease.unit l) in
      let! _ := get_contact (Unit.owner u) in
      if negb (bool_decide (Lease.landlord l = Unit.owner u))
      then raise (ValueError msg_landlord_owner)
      else
        when (negb (bool_decide (Unit.status u = Unit.OCCUPIED)))
             (let! _ := Unit_save (Some (Lease.unit l))
                                  (Unit.set_status Unit.OCCUPIED u) in
              ret tt) ;;;
        let! s := get_store in
        let (ls, k) := Model_save pk l (leases s) in
        put_store (set_leases ls s) ;;;
        ret k.

(** ** [LeaseCreateUpdateSerializer] ([serializers.py]) *)

(** The dictionary [validate] receives. A key the request did not send (a
    partial update) is [None]; a related field holds the primary key that
    the field resolved to a row of the store. *)
Record LeaseData := mkData {
  d_unit : option nat;
  d_tenant : option nat;
  d_landlord : option nat;
  d_start_date : option date;
  d_duration : option Z;
  d_rent_amount : option Z;
  d_payment_frequency : option Lease.PaymentFrequency
}.

Definition msg_unit_occupied : string :=
  "This unit is already occupied and cannot be leased.".
Definition msg_tenant_contact : string := "Contact must be of type Tenant.".
Definition msg_landlord_contact : string := "Contact must be of type Landlord.".
Definition msg_landlord_unit_owner : string :=
  "Landlord must be the owner of the unit.".

(** [validate(self, data)]; [instance] is [self.instance], the primary key
    of the lease being updated, [None] on creation. *)
Definition validate (instance : option nat) (data : LeaseData) : M LeaseData :=
  match instance, d_unit data with
  | None, Some uid =>
      let! u := get_unit uid in
      if bool_decide (Unit.status u = Unit.OCCUPIED)
      then raise (ValidationError "unit" msg_unit_occupied)
      else ret tt
  | _, _ => ret tt
  end ;;;
  match d_tenant data with
  | Some tid =>
      let! t := get_contact tid in
      if negb (bool_decide (Contact.contact_type t = Contact.TENANT))
      then raise (ValidationError "tenant" msg_tenant_contact)
      else ret tt
  | None => ret tt
  end ;;;
  match d_landlord data with
  | Some lid =>
      let! ll := get_contact lid in
      if negb (bool_decide (Contact.contact_type ll = Contact.LANDLORD))
      then raise (ValidationError "landlord" msg_landlord_contact)
      else ret tt
  | None => ret tt
  end ;;;
  match d_landlord data, d_unit data with
  | Some lid, Some uid =>
      let! u := get_unit uid in
      let! _ := get_contact (Unit.owner u) in
      if negb (bool_decide (lid = Unit.owner u))
      then raise (ValidationError "landlord" msg_landlord_unit_owner)
      else ret tt
  | _, _ => ret tt
  end ;;;
  ret data.

(** The data of a request that sends every field. *)
Definition full_data (l : Lease.t) : LeaseData :=
  mkData (Some (Lease.unit l)) (Some (Lease.tenant l))
         (Some (Lease.landlord l)) (Lease.start_date l)
         (Some (Lease.duration l)) (Some (Lease.rent_amount l))
         (Some (Lease.payment_frequency l)).

(** [ModelSerializer.update]: [setattr] for every key sent. *)
Definition update_instance (data : LeaseData) (l : Lease.t) : Lease.t :=
  Lease.mk (default (Lease.unit l) (d_unit data))
           (default (Lease.tenant l) (d_tenant data))
           (default (Lease.landlord l) (d_landlord data))
           (match d_start_date data with
            | Some d => Some d
            | None => Lease.start_date l
            end)
           (default (Lease.duration l) (d_duration data))
           (default (Lease.rent_amount l) (d_rent_amount data))
           (default (Lease.payment_frequency l) (d_payment_frequency data)).

(** [LeaseViewSet.create], from the point where the fields of the request
    have been accepted: the serializer's [validate] runs on the data, then
    [Lease.objects.create] saves a new instance built from it. The
    validation of the single fields, which comes before [validate]
    (required fields, the validators of the model fields, the resolution
    of the related keys), is not modelled: [l] stands for data that has
    passed it, and creation requires every field, so it is a whole
    lease. *)
Definition LeaseViewSet_create (l : Lease.t) : M nat :=
  validate None (full_data l) ;;;
  Lease_save None l.

(** [LeaseViewSet.update] and [partial_update], likewise from the point
    where the fields sent have been accepted: the lease is looked up (404
    when absent), the data validated against it, the sent keys are set on
    the instance and the instance is saved. *)
Definition LeaseViewSet_update (pk : nat) (data : LeaseData) : M nat :=
  let! s := get_store in
  match leases s !! pk with
  | None => raise Http404
  | Some inst =>
      validate (Some pk) data ;;;
      Lease_save (Some pk) (update_instance data inst)
  end.

(** ** Lease end date ([LeaseDetailSerializer.get_end_date]) *)

(** Decimal rendering of an integer, as [str] and [%d] give it. *)
Definition str (z : Z) : string := NilZero.string_of_int (Z.to_int z).

Definition MINYEAR : Z := 1.
Definition MAXYEAR : Z := 9999.

(** [calendar.isleap] *)
Definition isleap (y : Z) : bool :=
  (y mod 4 =? 0) && (negb (y mod 100 =? 0) || (y mod 400 =? 0)).

(** [calendar.mdays] *)
Definition mdays : list Z := [0; 31; 28; 31; 30; 31; 30; 31; 31; 30; 31; 30; 31].

(** [calendar.monthrange(y, m)[1]]: the number of days of month [m] of
    year [y]. *)
Definition monthrange (y m : Z) : Z :=
  nth (Z.to_nat m) mdays 0 + (if (m =? 2) && isleap y then 1 else 0).

(** The range of a C [int], which is what the [date] constructor and
    [date.replace] take their arguments as. *)
Definition INT_MIN : Z := -2147483648.
Definition INT_MAX : Z := 2147483647.

Definition fits_int (z : Z) : bool := (INT_MIN <=? z) && (z <=? INT_MAX).

(** The [date] constructor, which [date.replace] goes through: an argument
    that does not fit a C [int] raises [OverflowError] when the arguments
    are read, and then fields out of range are refused. *)
Definition date_new (y m d : Z) : result date :=
  if negb (fits_int y && fits_int m && fits_int d)
  then Raise OverflowError
  else if negb ((MINYEAR <=? y) && (y <=? MAXYEAR))
  then Raise (ValueError ("year " ++ str y ++ " is out of range")%string)
  else if negb ((1 <=? m) && (m <=? 12))
  then Raise (ValueError "month must be in 1..12")
  else if negb ((1 <=? d) && (d <=? monthrange y m))
  then Raise (ValueError "day is out of range for month")
  else Ok (Date y m d).

(** [dateutil.relativedelta], for the one way the serializer builds it:
    [relativedelta(months=n)]. Only the relative years and months are ever
    non-zero. *)
Record relativedelta := mkDelta { rd_years : Z; rd_months : Z }.

(** [_sign] *)
Definition sign (x : Z) : Z := if x <? 0 then -1 else 1.

(** [relativedelta(months=n)]: the constructor stores the months and
    [_fix] carries twelve of them into a year. *)
Definition relativedelta_months (n : Z) : relativedelta :=
  if Z.abs n >? 11
  then let s := sign n in
       mkDelta ((n * s / 12) * s) ((n * s mod 12) * s)
  else mkDelta 0 n.

(** [relativedelta.__radd__], which [date + relativedelta] dispatches
    to. *)
Definition relativedelta_radd (rd : relativedelta) (dt : date) : result date :=
  let y := year dt + rd_years rd in
  let m := month dt in
  let '(y, m) :=
    if rd_months rd =? 0 then (y, m)
    else let m := m + rd_months rd in
         if m >? 12 then (y + 1, m - 12)
         else if m <? 1 then (y - 1, m + 12)
         else (y, m) in
  let d := Z.min (monthrange y m) (day dt) in
  date_new y m d.

(** [get_end_date(self, obj)] *)
Definition get_end_date (obj : Lease.t) : result (option date) :=
  match Lease.start_date obj with
  | Some d =>
      match relativedelta_radd (relativedelta_months (Lease.duration obj)) d with
      | Ok e => Ok (Some e)
      | Raise e => Raise e
      end
  | None => Ok None
  end.

(** ** Dashboard ([DashboardView.list], [views.py]) *)

(** *** Python numbers and their formatting *)

(** A Python [float] is an IEEE 754 binary64 number. *)
Definition prec : Z := 53.
Definition emax : Z := 1024.

(** [float(z)]: the nearest double. *)
Definition float_of_int (z : Z) : spec_float :=
  binary_normalize prec emax z 0 false.

(** [a / b] on two [int]s: the exact quotient rounded once to the nearest
    double; a zero divisor raises. *)
Definition int_truediv (a b : Z) : result spec_float :=
  match a, b with
  | _, 0 => Raise ZeroDivisionError
  | 0, _ => Ok (S754_zero (b <? 0))
  | Zpos p, Zpos q => Ok (SFdiv prec emax (S754_finite false p 0) (S754_finite false q 0))
  | Zpos p, Zneg q => Ok (SFdiv prec emax (S754_finite false p 0) (S754_finite true q 0))
  | Zneg p, Zpos q => Ok (SFdiv prec emax (S754_finite true p 0) (S754_finite false q 0))
  | Zneg p, Zneg q => Ok (SFdiv prec emax (S754_finite true p 0) (S754_finite true q 0))
  end.

(** [x * z] on a [float] and an [int]. *)
Definition float_mul_int (x : spec_float) (z : Z) : spec_float :=
  SFmul prec emax x (float_of_int z).

(** The integer nearest to [num / den], ties to the even one. *)
Definition round_half_even (num den : Z) : Z :=
  let q := num / den in
  let r := num mod den in
  if 2 * r <? den then q
  else if 2 * r >? den then q + 1
  else if Z.even q then q else q + 1.

(** [k] written with at least [width] digits. *)
Definition zero_pad (width : nat) (k : Z) : string :=
  let digits := str k in
  (string_of_list_ascii (repeat "0"%char (width - String.length digits))
   ++ digits)%string.

(** [format(x, '.pf')]: [x] rounded to [p] decimal places, ties on the
    exact binary value going to the even digit, printed with exactly [p]
    places. *)
Definition format_f (p : nat) (x : spec_float) : string :=
  let scale := 10 ^ Z.of_nat p in
  let fixed (neg : bool) (n : Z) : string :=
    ((if neg then "-" else "") ++ str (n / scale) ++
     (if (p =? 0)%nat then "" else "." ++ zero_pad p (n mod scale)))%string in
  match x with
  | S754_zero neg => fixed neg 0
  | S754_infinity neg => if neg then "-inf" else "inf"
  | S754_nan => "nan"
  | S754_finite neg m e =>
      fixed neg (if 0 <=? e then Z.pos m * 2 ^ e * scale
                 else round_half_even (Z.pos m * scale) (2 ^ (- e)))
  end.

(** *** Unit status summary *)

#[global] Instance UnitStatus_countable : Countable Unit.UnitStatus.
Proof.
  refine (inj_countable'
            (fun st => match st with
                       | Unit.VACANT => 0%nat
                       | Unit.OCCUPIED => 1%nat
                       | Unit.MAINTENANCE => 2%nat
                       end)
            (fun n => match n with
                      | O => Unit.VACANT
                      | S O => Unit.OCCUPIED
                      | _ => Unit.MAINTENANCE
                      end) _).
  intros []; reflexivity.
Defined.

(** [Unit.objects.all()]: the rows of the table. *)
Definition Unit_objects_all (s : Store) : list (nat * Unit.t) :=
  map_to_list (units s).

(** One more unit of status [st] in the groups of a [GROUP BY status]. *)
Fixpoint bump (st : Unit.UnitStatus) (groups : list (Unit.UnitStatus * Z))
  : list (Unit.UnitStatus * Z) :=
  match groups with
  | [] => [(st, 1)]
  | (st', n) :: rest =>
      if bool_decide (st' = st) then (st', n + 1) :: rest
      else (st', n) :: bump st rest
  end.

(** [Unit.objects.values('status').annotate(count=Count('id'))]: a row for
    every status some unit has, with the number of units that have it. *)
Definition values_status_count (rows : list (nat * Unit.t))
  : list (Unit.UnitStatus * Z) :=
  fold_left (fun groups row => bump (Unit.status (snd row)) groups) rows [].

(** [{unit['status']: unit['count'] for unit in unit_counts}] *)
Definition dict_of (groups : list (Unit.UnitStatus * Z))
  : gmap Unit.UnitStatus Z :=
  fold_left (fun d g => <[fst g := snd g]> d) groups ∅.

(** [d.get(k, 0)] *)
Definition dict_get (d : gmap Unit.UnitStatus Z) (k : Unit.UnitStatus) : Z :=
  default 0 (d !! k).

Record UnitCounts := mkCounts {
  total_units : Z;
  vacant_units : Z;
  occupied_units : Z;
  maintenance_units : Z
}.

Definition unit_counts (s : Store) : UnitCounts :=
  let unit_status := dict_of (values_status_count (Unit_objects_all s)) in
  mkCounts (Z.of_nat (length (Unit_objects_all s)))
           (dict_get unit_status Unit.VACANT)
           (dict_get unit_status Unit.OCCUPIED)
           (dict_get unit_status Unit.MAINTENANCE).

(** The ['occupancy_rate'] entry:
    [f"{(occupied_units / total_units * 100) if total_units else 0:.2f}%"].
    The integer [0] of the other branch is formatted as the float it
    converts to. *)
Definition occupancy_rate (occupied total : Z) : result string :=
  if total =? 0
  then Ok (format_f 2 (float_of_int 0) ++ "%")%string
  else match int_truediv occupied total with
       | Ok q => Ok (format_f 2 (float_mul_int q 100) ++ "%")%string
       | Raise e => Raise e
       end.

(** The ['units_summary'] entry of the response. *)
Record UnitsSummary := mkUnitsSummary {
  us_total : Z;
  us_vacant : Z;
  us_occupied : Z;
  us_maintenance : Z;
  us_occupancy_rate : string
}.

Definition units_summary (c : UnitCounts) : result UnitsSummary :=
  match occupancy_rate (occupied_units c) (total_units c) with
  | Ok rate => Ok (mkUnitsSummary (total_units c) (vacant_units c)
                                  (occupied_units c) (maintenance_units c) rate)
  | Raise e => Raise e
  end.

(** *** Landlord summary *)

(** The value a [TextChoices] member stores and compares as. *)
Definition ContactType_value (t : Contact.ContactType) : string :=
  match t with
  | Contact.LANDLORD => "LANDLORD"
  | Contact.TENANT => "TENANT"
  end.

(** The text columns [Contact] declares, by field name. *)
Definition Contact_text_field (keyword : string) : option (Contact.t -> string) :=
  if String.eqb keyword "name" then Some Contact.name
  else if String.eqb keyword "contact_type"
  then Some (fun c => ContactType_value (Contact.contact_type c))
  else if String.eqb keyword "email" then Some Contact.email
  else if String.eqb keyword "phone" then Some Contact.phone
  else if String.eqb keyword "address" then Some Contact.address
  else None.

(** The other names a lookup on [Contact] resolves: the key and the
    reverse relations that the foreign keys of [Unit] and [Lease] declare,
    all compared as integer keys, and the two timestamps. *)
Definition Contact_key_fields : list string :=
  ["id"; "pk"; "owned_units"; "leases_as_tenant"; "leases_as_landlord"].
Definition Contact_datetime_fields : list string :=
  ["created_at"; "updated_at"].

(** [Contact.objects.filter(keyword=value)] for a string [value]. The
    keyword is resolved against the fields of the model when the query set
    is built: a name that is no field raises [FieldError]; a key or a
    timestamp refuses a string that does not convert (the strings compared
    here are names of contact types, which never do). *)
Definition Contact_objects_filter (keyword value : string)
  : M (list (nat * Contact.t)) :=
  match Contact_text_field keyword with
  | Some field =>
      let! s := get_store in
      ret (List.filter (fun row => String.eqb (field (snd row)) value)
                       (map_to_list (contacts s)))
  | None =>
      if existsb (String.eqb keyword) Contact_key_fields
      then raise (ValueError ("Field 'id' expected a number but got '" ++
                              value ++ "'."))%string
      else if existsb (String.eqb keyword) Contact_datetime_fields
      then raise (ValidationError keyword "value has an invalid format")
      else raise (FieldError keyword)
  end.

(** [Count('owned_units')] for the contact of key [pk]. *)
Definition units_count (s : Store) (pk : nat) : Z :=
  Z.of_nat (length (List.filter (fun row => Nat.eqb (Unit.owner (snd row)) pk)
                                (Unit_objects_all s))).

(** [.annotate(units_count=Count('owned_units')).values('id', 'name',
    'units_count')] *)
Definition annotate_units_count (s : Store) (rows : list (nat * Contact.t))
  : list (nat * string * Z) :=
  List.map (fun row => (fst row, Contact.name (snd row), units_count s (fst row)))
           rows.

(** *** The view *)

Record Dashboard := mkDashboard {
  db_units_summary : UnitsSummary;
  db_landlords_summary : list (nat * string * Z)
}.

(** [DashboardView.list], up to the two entries above; the rent summary and
    the latest lease are computed between the landlord query and the
    response and are left out. *)
Definition DashboardView_list : M Dashboard :=
  let! s := get_store in
  let counts := unit_counts s in
  let! landlords :=
    Contact_objects_filter "type" (ContactType_value Contact.LANDLORD) in
  let landlords := annotate_units_count s landlords in
  let! summary := lift (units_summary counts) in
  ret (mkDashboard summary landlords).

(** ** The filtered list actions ([ContactViewSet], [UnitViewSet]) *)

(** [get_type_display] and [get_status_display]: the labels of the
    choices. *)
Definition UnitType_display (t : Unit.UnitType) : string :=
  match t with
  | Unit.APARTMENT => "Apartment"
  | Unit.HOUSE => "House"
  | Unit.CONDO => "Condominium"
  | Unit.COMMERCIAL => "Commercial"
  | Unit.OTHER => "Other"
  end.

Definition UnitStatus_display (st : Unit.UnitStatus) : string :=
  match st with
  | Unit.VACANT => "Vacant"
  | Unit.OCCUPIED => "Occupied"
  | Unit.MAINTENANCE => "Under Maintenance"
  end.

(** What [UnitOwnerSerializer] renders of the owner. *)
Record UnitOwnerData := mkOwnerData {
  uo_id : nat;
  uo_name : string;
  uo_email : string;
  uo_phone : string
}.

(** What [UnitSerializer] renders of a unit, the timestamps apart. *)
Record UnitData := mkUnitData {
  ud_id : nat;
  ud_unit_number : string;
  ud_type : Unit.UnitType;
  ud_type_display : string;
  ud_location : string;
  ud_value : Z;
  ud_status : Unit.UnitStatus;
  ud_status_display : string;
  ud_owner : nat;
  ud_owner_details : UnitOwnerData
}.

(** [UnitSerializer(unit).data]: the nested field follows the foreign key
    to the owner. *)
Definition UnitSerializer_data (row : nat * Unit.t) : M UnitData :=
  let u := snd row in
  let! o := get_contact (Unit.owner u) in
  ret (mkUnitData (fst row) (Unit.unit_number u)
                  (Unit.type u) (UnitType_display (Unit.type u))
                  (Unit.location u) (Unit.value u)
                  (Unit.status u) (UnitStatus_display (Unit.status u))
                  (Unit.owner u)
                  (mkOwnerData (Unit.owner u) (Contact.name o)
                               (Contact.email o) (Contact.phone o))).

(** A serializer with [many=True]: the rows one after the other. *)
Fixpoint serialize_many {A B} (data : A -> M B) (rows : list A) : M (list B) :=
  match rows with
  | [] => ret []
  | row :: rest =>
      let! d := data row in
      let! ds := serialize_many data rest in
      ret (d :: ds)
  end.

(** What an action answers with: all the rows, or the page the paginator
    cut out of them. *)
Inductive ListResponse (A : Type) :=
| Response (rows : list A)
| PaginatedResponse (page : list A).
Arguments Response {A} rows.
Arguments PaginatedResponse {A} page.

Definition response_rows {A} (r : ListResponse A) : list A :=
  match r with
  | Response rows => rows
  | PaginatedResponse page => page
  end.

Section ListActions.

(** The database sorts under its collation and the paginator cuts its
    pages under the settings of the project; neither is in these files. *)
Variable order_by_name : list (nat * Contact.t) -> list (nat * Contact.t).
Variable order_by_unit_number : list (nat * Unit.t) -> list (nat * Unit.t).
Variable paginate_queryset : forall A : Type, list A -> option (list A).

(** [ContactViewSet.queryset] and [UnitViewSet.queryset] *)
Definition ContactViewSet_queryset (s : Store) : list (nat * Contact.t) :=
  order_by_name (map_to_list (contacts s)).

Definition UnitViewSet_queryset (s : Store) : list (nat * Unit.t) :=
  order_by_unit_number (map_to_list (units s)).

(** The two actions of [ContactViewSet], which differ in the type they
    filter on. [ContactSerializer] renders every field of a contact, so a
    row stands for its rendering. *)
Definition ContactViewSet_by_type (ty : Contact.ContactType) (s : Store)
  : ListResponse (nat * Contact.t) :=
  let rows :=
    List.filter (fun row => bool_decide (Contact.contact_type (snd row) = ty))
                (ContactViewSet_queryset s) in
  match paginate_queryset _ rows with
  | Some page => PaginatedResponse page
  | None => Response rows
  end.

Definition ContactViewSet_landlords : Store -> ListResponse (nat * Contact.t) :=
  ContactViewSet_by_type Contact.LANDLORD.

Definition ContactViewSet_tenants : Store -> ListResponse (nat * Contact.t) :=
  ContactViewSet_by_type Contact.TENANT.

(** The two actions of [UnitViewSet], which differ in the status they
    filter on. *)
Definition UnitViewSet_by_status (st : Unit.UnitStatus)
  : M (ListResponse UnitData) :=
  let! s := get_store in
  let rows :=
    List.filter (fun row => bool_decide (Unit.status (snd row) = st))
                (UnitViewSet_queryset s) in
  match paginate_queryset _ rows with
  | Some page =>
      let! data := serialize_many UnitSerializer_data page in
      ret (PaginatedResponse data)
  | None =>
      let! data := serialize_many UnitSerializer_data rows in
      ret (Response data)
  end.

Definition UnitViewSet_vacant : M (ListResponse UnitData) :=
  UnitViewSet_by_status Unit.VACANT.

Definition UnitViewSet_occupied : M (ListResponse UnitData) :=
  UnitViewSet_by_status Unit.OCCUPIED.

End ListActions.

(** A paginator that cuts no page, and one that cuts the first page of
    ten rows. *)
Definition no_pagination (A : Type) (rows : list A) : option (list A) := None.
Definition first_page (A : Type) (rows : list A) : option (list A) :=
  Some (take 10 rows).

(** * Vocabulary of the properties *)

(** How the specification names the exceptions: by the check that
    raised. *)
Definition RoleViolation (e : error) : Prop :=
  e = ValueError msg_tenant_type \/ e = ValueError msg_landlord_type \/
  e = ValueError msg_owner_landlord.

Definition OwnershipMismatch (e : error) : Prop :=
  e = ValueError msg_landlord_owner.

Definition AlreadyOccupied (e : error) : Prop :=
  e = ValidationError "unit" msg_unit_occupied.

(** Invariant 1 of the data model: every unit is owned by a LANDLORD. *)
Definition owners_are_landlords (s : Store) : Prop :=
  forall k u,
    units s !! k = Some u ->
    exists o, contacts s !! Unit.owner u = Some o /\
              Contact.contact_type o = Contact.LANDLORD.

(** The store a lease write leaves when every check has passed. *)
Definition lease_written (pk : option nat) (l : Lease.t) (u : Unit.t)
  (s : Store) : Store :=
  mkStore (contacts s)
          (<[Lease.unit l := Unit.set_status Unit.OCCUPIED u]> (units s))
          (fst (Model_save pk l (leases s))).

(** The dates a [date] can hold. *)
Definition valid_date (d : date) : Prop :=
  MINYEAR <= year d <= MAXYEAR /\ 1 <= month d <= 12 /\
  1 <= day d <= monthrange (year d) (month d).

(** The end date as the specification words it: the start date moved on by
    [n] calendar months, the day of the month clamped to the last day of
    the month reached. *)
Definition endDate (d : date) (n : Z) : date :=
  let k := 12 * year d + (month d - 1) + n in
  let y := k / 12 in
  let m := k mod 12 + 1 in
  Date y m (Z.min (day d) (monthrange y m)).

(** The number of units of a status, counted row by row. *)
Definition count_status (st : Unit.UnitStatus) (rows : list (nat * Unit.t)) : Z :=
  Z.of_nat (length (List.filter
                      (fun row => bool_decide (Unit.status (snd row) = st))
                      rows)).

(** The count the groups of the grouped query hold for a status, none when
    no group has it. *)
Fixpoint group_find (st : Unit.UnitStatus) (groups : list (Unit.UnitStatus * Z))
  : option Z :=
  match groups with
  | [] => None
  | (st', n) :: rest => if decide (st' = st) then Some n else group_find st rest
  end.

(** The landlord query under the name the field has, [contact_type], which
    is the name every other query on contacts in [views.py] uses. *)
Definition landlords_by_contact_type : M (list (nat * string * Z)) :=
  let! s := get_store in
  let! landlords :=
    Contact_objects_filter "contact_type" (ContactType_value Contact.LANDLORD) in
  ret (annotate_units_count s landlords).

(** Referential integrity: every foreign key of a stored row is the key of
    a stored row. *)
Definition refs_ok (s : Store) : Prop :=
  (forall k u, units s !! k = Some u -> is_Some (contacts s !! Unit.owner u)) /\
  (forall k l,
      leases s !! k = Some l ->
      is_Some (units s !! Lease.unit l) /\
      is_Some (contacts s !! Lease.tenant l) /\
      is_Some (contacts s !! Lease.landlord l)).

(** What a rendered unit says of the row it renders. *)
Definition renders (s : Store) (row : nat * Unit.t) (d : UnitData) : Prop :=
  ud_id d = fst row /\
  ud_unit_number d = Unit.unit_number (snd row) /\
  ud_status d = Unit.status (snd row) /\
  ud_status_display d = UnitStatus_display (Unit.status (snd row)) /\
  ud_owner d = Unit.owner (snd row) /\
  exists o, contacts s !! Unit.owner (snd row) = Some o /\
            ud_owner_details d
            = mkOwnerData (Unit.owner (snd row)) (Contact.name o)
                          (Contact.email o) (Contact.phone o).

(** * Example data *)

(** The rows [load_test_data] creates, before its lease: John, a landlord,
    Jane, a tenant, and John's unit A1. *)
Definition john : Contact.t :=
  Contact.mk "John Doe" Contact.LANDLORD "john.doe@example.com"
             "555-123-4567" "123 Landlord St, Property City, PC 12345".
Definition jane : Contact.t :=
  Contact.mk "Jane Smith" Contact.TENANT "jane.smith@example.com"
             "555-765-4321" "456 Tenant Ave, Renter City, RC 54321".
Definition unit_A1 : Unit.t :=
  Unit.mk "A1" Unit.APARTMENT "789 Property Blvd, Rental City, RC 67890"
          25000000 Unit.VACANT 1.
Definition test_store : Store :=
  mkStore (<[1%nat := john]> (<[2%nat := jane]> ∅)) (<[1%nat := unit_A1]> ∅) ∅.

(** The lease [load_test_data] creates, and the store once it is saved:
    unit A1 is leased to Jane. *)
Definition test_lease : Lease.t :=
  Lease.mk 1 2 1 (Some (Date 2025 1 1)) 12 150000 Lease.MONTHLY.
Definition leased_store : Store :=
  fst (Lease_save None test_lease test_store).

(** Jane, a tenant, put down as the landlord of John's unit. *)
Definition lease_jane_landlord : Lease.t :=
  Lease.mk 1 2 2 (Some (Date 2025 1 1)) 12 150000 Lease.MONTHLY.

(** Bob, a second landlord, who owns nothing, put down as the landlord of
    John's unit. *)
Definition bob : Contact.t :=
  Contact.mk "Bob Roe" Contact.LANDLORD "" "" "".
Definition store_with_bob : Store :=
  mkStore (<[3%nat := bob]> (contacts test_store)) (units test_store)
          (leases test_store).
Definition lease_bob_landlord : Lease.t :=
  Lease.mk 1 2 3 (Some (Date 2025 1 1)) 12 150000 Lease.MONTHLY.

(** A second unit of John's, and a unit for Jane to own. *)
Definition unit_A2 : Unit.t :=
  Unit.mk "A2" Unit.CONDO "791 Property Blvd" 30000000 Unit.VACANT 1.
Definition unit_B2 : Unit.t :=
  Unit.mk "B2" Unit.HOUSE "1 Side St" 100000 Unit.VACANT 2.

(** Unit A1 leased to Jane and unit A2 occupied as well. *)
Definition store_two_units : Store :=
  mkStore (contacts test_store)
          (<[2%nat := Unit.set_status Unit.OCCUPIED unit_A2]> (units leased_store))
          (leases leased_store).

(** A partial update that moves a lease to another unit, and one that
    changes its tenant. *)
Definition patch_unit (uid : nat) : LeaseData :=
  mkData (Some uid) None None None None None None.
Definition patch_tenant (tid : nat) : LeaseData :=
  mkData None (Some tid) None None None None None.

(** A lease of [n] months from [d]. *)
Definition lease_from (d : date) (n : Z) : Lease.t :=
  Lease.mk 1 2 1 (Some d) n 150000 Lease.MONTHLY.

(** No rows at all, and three units of John's: one vacant, two occupied. *)
Definition empty_store : Store := mkStore ∅ ∅ ∅.
Definition three_units : Store :=
  mkStore (contacts test_store)
          (<[1%nat := unit_A1]>
             (<[2%nat := Unit.set_status Unit.OCCUPIED unit_A2]>
                (<[5%nat := Unit.mk "A5" Unit.APARTMENT "5 Fifth St" 0
                                    Unit.OCCUPIED 1]> ∅)))
          ∅.

(** A date written out is checked field by field. *)
Ltac valid_date_by_computation :=
  repeat split; apply Z.leb_le; vm_compute; reflexivity.

(** * Properties *)

(** ** The two [save] methods, unfolded *)

Lemma set_status_same (u : Unit.t) :
  Unit.set_status (Unit.status u) u = u.
Proof. destruct u; reflexivity. Qed.

Lemma Unit_save_eq (pk : option nat) (u : Unit.t) (s : Store) :
  Unit_save pk u s =
  match contacts s !! Unit.owner u with
  | None => (s, Raise (DoesNotExist "Contact"))
  | Some o =>
      if decide (Contact.contact_type o = Contact.LANDLORD)
      then (set_units (fst (Model_save pk u (units s))) s,
            Ok (snd (Model_save pk u (units s))))
      else (s, Raise (ValueError msg_owner_landlord))
  end.
Proof.
  unfold Unit_save, bind, get_contact, get_store, put_store, ret, raise.
  destruct (contacts s !! Unit.owner u) as [o|]; [|reflexivity].
  destruct (decide (Contact.contact_type o = Contact.LANDLORD)) as [Ho|Ho].
  - rewrite bool_decide_eq_true_2 by assumption. simpl.
    destruct (Model_save pk u (units s)); reflexivity.
  - rewrite bool_decide_eq_false_2 by assumption. reflexivity.
Qed.

Lemma Lease_save_eq (pk : option nat) (l : Lease.t) (s : Store) :
  Lease_save pk l s =
  match contacts s !! Lease.tenant l with
  | None => (s, Raise (DoesNotExist "Contact"))
  | Some t =>
    if decide (Contact.contact_type t = Contact.TENANT) then
      match contacts s !! Lease.landlord l with
      | None => (s, Raise (DoesNotExist "Contact"))
      | Some ll =>
        if decide (Contact.contact_type ll = Contact.LANDLORD) then
          match units s !! Lease.unit l with
          | None => (s, Raise (DoesNotExist "Unit"))
          | Some u =>
            match contacts s !! Unit.owner u with
            | None => (s, Raise (DoesNotExist "Contact"))
            | Some _ =>
              if decide (Lease.landlord l = Unit.owner u)
              then (lease_written pk l u s,
                    Ok (snd (Model_save pk l (leases s))))
              else (s, Raise (ValueError msg_landlord_owner))
            end
          end
        else (s, Raise (ValueError msg_landlord_type))
      end
    else (s, Raise (ValueError msg_tenant_type))
  end.
Proof.
  unfold Lease_save.
  unfold bind at 1. unfold get_contact at 1.
  destruct (contacts s !! Lease.tenant l) as [t|] eqn:Ht; [|reflexivity].
  destruct (decide (Contact.contact_type t = Contact.TENANT)) as [Htt|Htt];
    [rewrite bool_decide_eq_true_2 by assumption
    |rewrite bool_decide_eq_false_2 by assumption; reflexivity].
  cbn [negb].
  unfold bind at 1. unfold get_contact at 1.
  destruct (contacts s !! Lease.landlord l) as [ll|] eqn:Hl; [|reflexivity].
  destruct (decide (Contact.contact_type ll = Contact.LANDLORD)) as [Hlt|Hlt];
    [rewrite bool_decide_eq_true_2 by assumption
    |rewrite bool_decide_eq_false_2 by assumption; reflexivity].
  cbn [negb].
  unfold bind at 1. unfold get_unit.
  destruct (units s !! Lease.unit l) as [u|] eqn:Hu; [|reflexivity].
  unfold bind at 1. unfold get_contact at 1.
  destruct (contacts s !! Unit.owner u) as [o|] eqn:Ho; [|reflexivity].
  destruct (decide (Lease.landlord l = Unit.owner u)) as [Hlo|Hlo];
    [rewrite bool_decide_eq_true_2 by assumption
    |rewrite bool_decide_eq_false_2 by assumption; reflexivity].
  cbn [negb].
  assert (Hown : contacts s !! Unit.owner (Unit.set_status Unit.OCCUPIED u)
                 = Some ll).
  { destruct u; simpl in *. congruence. }
  unfold lease_written.
  destruct (decide (Unit.status u = Unit.OCCUPIED)) as [Hst|Hst].
  - rewrite bool_decide_eq_true_2 by assumption.
    unfold when, bind, ret, get_store, put_store, set_leases. simpl.
    destruct (Model_save pk l (leases s)) as [ls k]. simpl.
    rewrite <- Hst, set_status_same, insert_id by assumption.
    destruct s; reflexivity.
  - rewrite bool_decide_eq_false_2 by assumption.
    unfold when. cbn [negb].
    unfold bind. rewrite Unit_save_eq, Hown.
    rewrite decide_True by assumption.
    unfold ret, get_store, put_store, set_leases, set_units. simpl.
    destruct (Model_save pk l (leases s)) as [ls k]. reflexivity.
Qed.

Lemma next_pk_fresh {A} (table : gmap nat A) : table !! next_pk table = None.
Proof.
  apply not_elem_of_dom. unfold next_pk.
  pose proof (is_fresh ({[0%nat]} ∪ dom table)) as Hf. set_solver.
Qed.

Lemma Model_save_lookup {A} (pk : option nat) (row : A) (table : gmap nat A) :
  fst (Model_save pk row table) !! snd (Model_save pk row table) = Some row.
Proof. destruct pk; simpl; apply lookup_insert_eq. Qed.

(** A write with a primary key touches that row only; a write without one
    adds a row and touches none. *)
Lemma Model_save_other {A} (pk : option nat) (row : A) (table : gmap nat A)
  (k : nat) :
  k <> snd (Model_save pk row table) ->
  fst (Model_save pk row table) !! k = table !! k.
Proof. destruct pk; simpl; intros Hk; rewrite lookup_insert_ne; auto. Qed.

Lemma Model_save_create_size {A} (row : A) (table : gmap nat A) :
  size (fst (Model_save None row table)) = S (size table).
Proof. simpl. apply map_size_insert_None, next_pk_fresh. Qed.

(** ** Lease writes ([Lease.save]) *)

Lemma Lease_save_inv (pk : option nat) (l : Lease.t) (s s' : Store)
  (r : result nat) :
  Lease_save pk l s = (s', r) ->
  (exists e, r = Raise e /\ s' = s) \/
  (exists t ll u,
      contacts s !! Lease.tenant l = Some t /\
      Contact.contact_type t = Contact.TENANT /\
      contacts s !! Lease.landlord l = Some ll /\
      Contact.contact_type ll = Contact.LANDLORD /\
      units s !! Lease.unit l = Some u /\
      Lease.landlord l = Unit.owner u /\
      s' = lease_written pk l u s /\
      r = Ok (snd (Model_save pk l (leases s)))).
Proof.
  rewrite Lease_save_eq. intros H.
  repeat case_match; simplify_eq; eauto 12.
Qed.

(** C1. A lease write that raises, whichever check raised, returns the
    store it was given: the unit it references has the status it had and no
    lease row was written. *)
Theorem Lease_save_failure_atomic (pk : option nat) (l : Lease.t)
  (s s' : Store) (e : error) :
  Lease_save pk l s = (s', Raise e) ->
  s' = s /\
  units s' !! Lease.unit l = units s !! Lease.unit l /\
  leases s' = leases s.
Proof.
  intros H. apply Lease_save_inv in H as [(e' & _ & ->)|H].
  - auto.
  - destruct H as (? & ? & ? & ? & ? & ? & ? & ? & ? & ? & ?). discriminate.
Qed.

Lemma Lease_save_failure_atomic_witness :
  Lease_save None lease_jane_landlord test_store
  = (test_store, Raise (ValueError msg_landlord_type)) /\
  test_store = test_store /\
  units test_store !! 1%nat = units test_store !! 1%nat /\
  leases test_store = leases test_store.
Proof.
  assert (H : Lease_save None lease_jane_landlord test_store
              = (test_store, Raise (ValueError msg_landlord_type)))
    by (vm_compute; reflexivity).
  split; [exact H|].
  exact (Lease_save_failure_atomic None lease_jane_landlord test_store
           test_store _ H).
Defined.

(** C2. After a lease write that succeeds the lease is stored and the unit
    it references is OCCUPIED; and a lease on a VACANT unit, for a TENANT
    and the unit's owner, a LANDLORD, is written. *)
Theorem Lease_save_occupies (pk : option nat) (l : Lease.t) (s : Store) :
  (forall s' k,
      Lease_save pk l s = (s', Ok k) ->
      leases s' !! k = Some l /\
      exists u, units s' !! Lease.unit l = Some u /\
                Unit.status u = Unit.OCCUPIED) /\
  (forall u t ll,
      units s !! Lease.unit l = Some u ->
      Unit.status u = Unit.VACANT ->
      contacts s !! Lease.tenant l = Some t ->
      Contact.contact_type t = Contact.TENANT ->
      Lease.landlord l = Unit.owner u ->
      contacts s !! Lease.landlord l = Some ll ->
      Contact.contact_type ll = Contact.LANDLORD ->
      exists s' k,
        Lease_save pk l s = (s', Ok k) /\
        leases s' !! k = Some l /\
        units s' !! Lease.unit l = Some (Unit.set_status Unit.OCCUPIED u)).
Proof.
  split.
  - intros s' k H. apply Lease_save_inv in H as [(e & ? & _)|H]; [discriminate|].
    destruct H as (t & ll & u & _ & _ & _ & _ & _ & _ & -> & [= ->]).
    unfold lease_written; simpl. split.
    + apply Model_save_lookup.
    + exists (Unit.set_status Unit.OCCUPIED u).
      rewrite lookup_insert_eq. auto.
  - intros u t ll Hu _ Ht Htt Hlo Hl Hlt.
    rewrite Lease_save_eq, Ht, Hl, Hu.
    rewrite !decide_True by assumption.
    rewrite <- Hlo, Hl.
    eexists _, _. split; [reflexivity|].
    unfold lease_written; simpl. split.
    + apply Model_save_lookup.
    + apply lookup_insert_eq.
Qed.

Lemma Lease_save_occupies_witness :
  exists s' k,
    Lease_save None test_lease test_store = (s', Ok k) /\
    leases s' !! k = Some test_lease /\
    units s' !! 1%nat = Some (Unit.set_status Unit.OCCUPIED unit_A1) /\
    exists u, units s' !! 1%nat = Some u /\ Unit.status u = Unit.OCCUPIED.
Proof.
  destruct (Lease_save_occupies None test_lease test_store) as [Hany Hvacant].
  destruct (Hvacant unit_A1 jane john) as (s' & k & Hs & Hk & Hu);
    try (vm_compute; reflexivity).
  exists s', k. split; [exact Hs|]. split; [exact Hk|]. split; [exact Hu|].
  exact (proj2 (Hany s' k Hs)).
Defined.

(** C4. A lease whose tenant is not a TENANT, or whose landlord is not a
    LANDLORD, is refused with the message of the role check, and the store,
    with it the status of the unit, stays as it was. *)
Theorem Lease_save_role_violation (pk : option nat) (l : Lease.t) (s : Store)
  (t ll : Contact.t) :
  contacts s !! Lease.tenant l = Some t ->
  contacts s !! Lease.landlord l = Some ll ->
  Contact.contact_type t <> Contact.TENANT \/
  Contact.contact_type ll <> Contact.LANDLORD ->
  exists e,
    Lease_save pk l s = (s, Raise e) /\
    (e = ValueError msg_tenant_type \/ e = ValueError msg_landlord_type) /\
    RoleViolation e.
Proof.
  intros Ht Hl Hbad. rewrite Lease_save_eq, Ht, Hl.
  unfold RoleViolation.
  destruct (decide (Contact.contact_type t = Contact.TENANT)) as [Htt|Htt].
  - destruct Hbad as [?|Hbad]; [contradiction|].
    rewrite decide_False by assumption. eauto 10.
  - eauto 10.
Qed.

Lemma Lease_save_role_violation_witness :
  exists e,
    Lease_save None lease_jane_landlord test_store = (test_store, Raise e) /\
    (e = ValueError msg_tenant_type \/ e = ValueError msg_landlord_type) /\
    RoleViolation e.
Proof.
  apply (Lease_save_role_violation None lease_jane_landlord test_store
           jane jane); [reflexivity|reflexivity|].
  right. discriminate.
Defined.

(** C5, as the specification words it, fails: the two role checks come
    first, so a lease whose landlord is not the owner of the unit because a
    tenant was put down as landlord is refused by the role check. *)
Lemma Lease_save_ownership_counterexample :
  units test_store !! Lease.unit lease_jane_landlord = Some unit_A1 /\
  Lease.landlord lease_jane_landlord <> Unit.owner unit_A1 /\
  exists e,
    Lease_save None lease_jane_landlord test_store = (test_store, Raise e) /\
    ~ OwnershipMismatch e.
Proof.
  split; [reflexivity|]. split; [discriminate|].
  exists (ValueError msg_landlord_type). split; [vm_compute; reflexivity|].
  unfold OwnershipMismatch. discriminate.
Qed.

(** C5, amended. A lease whose landlord is not the owner of its unit is
    refused and nothing is written; when its tenant is a TENANT and its
    landlord a LANDLORD, the exception is that of the ownership check. *)
Theorem Lease_save_ownership_mismatch (pk : option nat) (l : Lease.t)
  (s : Store) (t ll o : Contact.t) (u : Unit.t) :
  contacts s !! Lease.tenant l = Some t ->
  contacts s !! Lease.landlord l = Some ll ->
  units s !! Lease.unit l = Some u ->
  contacts s !! Unit.owner u = Some o ->
  Lease.landlord l <> Unit.owner u ->
  exists e,
    Lease_save pk l s = (s, Raise e) /\
    (Contact.contact_type t = Contact.TENANT ->
     Contact.contact_type ll = Contact.LANDLORD ->
     OwnershipMismatch e).
Proof.
  intros Ht Hl Hu Ho Hne. rewrite Lease_save_eq, Ht, Hl, Hu, Ho.
  unfold OwnershipMismatch.
  rewrite (decide_False (P := Lease.landlord l = Unit.owner u)) by assumption.
  repeat case_decide; eexists; (split; [reflexivity|]); intros; congruence.
Qed.

Lemma Lease_save_ownership_mismatch_witness :
  exists e,
    Lease_save None lease_bob_landlord store_with_bob
    = (store_with_bob, Raise e) /\
    OwnershipMismatch e.
Proof.
  destruct (Lease_save_ownership_mismatch None lease_bob_landlord
              store_with_bob jane bob john unit_A1) as (e & He & Hkind);
    try reflexivity; [discriminate|].
  exists e. split; [exact He|]. apply Hkind; reflexivity.
Defined.

(** ** Unit writes ([Unit.save]) *)

(** C6. A unit write that succeeds stores the unit, its owner is a
    LANDLORD, and if every unit had a LANDLORD owner before, every unit has
    one after; a unit whose owner is not a LANDLORD is refused by the role
    check and the store stays as it was. *)
Theorem Unit_save_owner_landlord (pk : option nat) (u : Unit.t) (s : Store) :
  (forall s' k,
      Unit_save pk u s = (s', Ok k) ->
      units s' !! k = Some u /\
      (exists o, contacts s' !! Unit.owner u = Some o /\
                 Contact.contact_type o = Contact.LANDLORD) /\
      (owners_are_landlords s -> owners_are_landlords s')) /\
  (forall o,
      contacts s !! Unit.owner u = Some o ->
      Contact.contact_type o <> Contact.LANDLORD ->
      Unit_save pk u s = (s, Raise (ValueError msg_owner_landlord)) /\
      RoleViolation (ValueError msg_owner_landlord)).
Proof.
  split.
  - intros s' k. rewrite Unit_save_eq.
    destruct (contacts s !! Unit.owner u) as [o|] eqn:Ho; [|discriminate].
    case_decide as Hty; [|discriminate].
    intros [= <- <-]. simpl. split; [apply Model_save_lookup|].
    split; [eauto|].
    intros Hinv k' u'. unfold set_units; simpl.
    destruct (decide (k' = snd (Model_save pk u (units s)))) as [->|Hk].
    + rewrite Model_save_lookup. intros [= <-]. eauto.
    + rewrite Model_save_other by assumption. apply Hinv.
  - intros o Ho Hty. rewrite Unit_save_eq, Ho.
    rewrite decide_False by assumption.
    unfold RoleViolation. auto.
Qed.

Lemma test_store_owners : owners_are_landlords test_store.
Proof.
  intros k u. unfold test_store; simpl.
  destruct (decide (k = 1%nat)) as [->|Hk].
  - rewrite lookup_insert_eq. intros [= <-]. exists john. split; reflexivity.
  - rewrite lookup_insert_ne by auto. rewrite lookup_empty. discriminate.
Defined.

Lemma Unit_save_owner_landlord_witness :
  (exists s' k,
      Unit_save None unit_A2 test_store = (s', Ok k) /\
      units s' !! k = Some unit_A2 /\
      (exists o, contacts s' !! 1%nat = Some o /\
                 Contact.contact_type o = Contact.LANDLORD) /\
      owners_are_landlords s') /\
  Unit_save None unit_B2 test_store
  = (test_store, Raise (ValueError msg_owner_landlord)).
Proof.
  split.
  - destruct (Unit_save_owner_landlord None unit_A2 test_store) as [Hok _].
    eexists _, _. split; [vm_compute; reflexivity|].
    edestruct Hok as (Hk & Ho & Hinv); [vm_compute; reflexivity|].
    split; [exact Hk|]. split; [exact Ho|].
    exact (Hinv test_store_owners).
  - destruct (Unit_save_owner_landlord None unit_B2 test_store) as [_ Hbad].
    exact (proj1 (Hbad jane eq_refl ltac:(discriminate))).
Defined.

(** Lease writes keep invariant 1 as well: the unit they rewrite keeps its
    owner. *)
Lemma Lease_save_owners (pk : option nat) (l : Lease.t) (s s' : Store)
  (r : result nat) :
  Lease_save pk l s = (s', r) ->
  owners_are_landlords s -> owners_are_landlords s'.
Proof.
  intros H Hinv. apply Lease_save_inv in H as [(e & _ & ->)|H]; [assumption|].
  destruct H as (t & ll & u & _ & _ & Hl & Hlt & Hu & Hlo & -> & _).
  intros k' u'. unfold lease_written; simpl.
  destruct (decide (k' = Lease.unit l)) as [->|Hk].
  - rewrite lookup_insert_eq. intros [= <-].
    exists ll. destruct u; simpl in *. split; congruence.
  - rewrite lookup_insert_ne by auto. apply Hinv.
Qed.

(** ** The occupancy check ([LeaseCreateUpdateSerializer.validate]) *)

(** C3, as the specification words it, fails: [Lease.save] looks at the
    roles and at the owner only. Saving a second lease on the unit of
    [leased_store], which is OCCUPIED, writes a second lease row. *)
Lemma Lease_save_occupied_counterexample :
  units leased_store !! Lease.unit test_lease
  = Some (Unit.set_status Unit.OCCUPIED unit_A1) /\
  size (leases leased_store) = 1%nat /\
  exists s' k,
    Lease_save None test_lease leased_store = (s', Ok k) /\
    leases leased_store !! k = None /\
    leases s' !! k = Some test_lease /\
    size (leases s') = 2%nat.
Proof.
  split; [vm_compute; reflexivity|]. split; [vm_compute; reflexivity|].
  eexists _, _. split; [vm_compute; reflexivity|].
  split; [vm_compute; reflexivity|].
  split; vm_compute; reflexivity.
Qed.

(** C3, amended. Creating a lease through the view on a unit that is
    OCCUPIED is refused by the serializer with the occupancy message, and
    the store stays as it was: no lease row is added. The check is the
    serializer's alone: [Lease.save] itself, given a TENANT and the owner
    of the unit, a LANDLORD, adds a lease row on that unit. *)
Theorem LeaseViewSet_create_occupied (l : Lease.t) (s : Store) (u : Unit.t) :
  units s !! Lease.unit l = Some u ->
  Unit.status u = Unit.OCCUPIED ->
  (LeaseViewSet_create l s
   = (s, Raise (ValidationError "unit" msg_unit_occupied)) /\
   AlreadyOccupied (ValidationError "unit" msg_unit_occupied)) /\
  (forall t ll,
      contacts s !! Lease.tenant l = Some t ->
      Contact.contact_type t = Contact.TENANT ->
      contacts s !! Lease.landlord l = Some ll ->
      Contact.contact_type ll = Contact.LANDLORD ->
      Lease.landlord l = Unit.owner u ->
      exists s' k,
        Lease_save None l s = (s', Ok k) /\
        leases s !! k = None /\
        leases s' !! k = Some l /\
        units s' = units s).
Proof.
  intros Hu Hst. split.
  - split; [|reflexivity].
    unfold LeaseViewSet_create, validate. simpl.
    unfold bind at 1. unfold bind at 1. unfold bind at 1. unfold bind at 1.
    unfold bind at 1. unfold bind at 1.
    unfold get_unit at 1. rewrite Hu.
    rewrite bool_decide_eq_true_2 by assumption. reflexivity.
  - intros t ll Ht Htt Hl Hlt Hlo.
    rewrite Lease_save_eq, Ht, Hl, Hu.
    rewrite !decide_True by assumption. rewrite <- Hlo, Hl.
    eexists _, _. split; [reflexivity|].
    unfold lease_written; simpl. split; [apply next_pk_fresh|].
    split; [apply lookup_insert_eq|].
    rewrite <- Hst, set_status_same. apply insert_id. assumption.
Qed.

Lemma LeaseViewSet_create_occupied_witness :
  (LeaseViewSet_create test_lease leased_store
   = (leased_store, Raise (ValidationError "unit" msg_unit_occupied)) /\
   AlreadyOccupied (ValidationError "unit" msg_unit_occupied)) /\
  exists s' k,
    Lease_save None test_lease leased_store = (s', Ok k) /\
    leases leased_store !! k = None /\
    leases s' !! k = Some test_lease /\
    units s' = units leased_store.
Proof.
  destruct (LeaseViewSet_create_occupied test_lease leased_store
              (Unit.set_status Unit.OCCUPIED unit_A1))
    as [Hview Hsave]; [vm_compute; reflexivity|reflexivity|].
  split; [exact Hview|].
  apply (Hsave jane john); reflexivity.
Defined.

(** With an instance, [validate] lets through any data whose roles and
    owner are right, whatever the status of the unit. *)
Lemma validate_instance_ok (pk : nat) (data : LeaseData) (s : Store) :
  (forall tid, d_tenant data = Some tid ->
     exists t, contacts s !! tid = Some t /\
               Contact.contact_type t = Contact.TENANT) ->
  (forall lid, d_landlord data = Some lid ->
     exists ll, contacts s !! lid = Some ll /\
                Contact.contact_type ll = Contact.LANDLORD) ->
  (forall lid uid, d_landlord data = Some lid -> d_unit data = Some uid ->
     exists u, units s !! uid = Some u /\ lid = Unit.owner u) ->
  validate (Some pk) data s = (s, Ok data).
Proof.
  intros Ht Hl Hu. unfold validate, bind, ret, raise, get_contact, get_unit.
  destruct (d_tenant data) as [tid|].
  - destruct (Ht tid eq_refl) as (t & -> & Htt).
    rewrite bool_decide_eq_true_2 by assumption. simpl.
    destruct (d_landlord data) as [lid|]; [|reflexivity].
    destruct (Hl lid eq_refl) as (ll & Hll & Hlt).
    rewrite Hll. rewrite bool_decide_eq_true_2 by assumption. simpl.
    destruct (d_unit data) as [uid|]; [|reflexivity].
    destruct (Hu lid uid eq_refl eq_refl) as (u & -> & Hlo).
    rewrite <- Hlo, Hll. rewrite bool_decide_eq_true_2 by reflexivity.
    reflexivity.
  - simpl.
    destruct (d_landlord data) as [lid|]; [|reflexivity].
    destruct (Hl lid eq_refl) as (ll & Hll & Hlt).
    rewrite Hll. rewrite bool_decide_eq_true_2 by assumption. simpl.
    destruct (d_unit data) as [uid|]; [|reflexivity].
    destruct (Hu lid uid eq_refl eq_refl) as (u & -> & Hlo).
    rewrite <- Hlo, Hll. rewrite bool_decide_eq_true_2 by reflexivity.
    reflexivity.
Qed.

(** With an instance, [validate] never raises the occupancy error. *)
Lemma validate_instance_not_occupied (pk : nat) (data : LeaseData)
  (s s' : Store) (e : error) :
  validate (Some pk) data s = (s', Raise e) -> ~ AlreadyOccupied e.
Proof.
  unfold AlreadyOccupied, validate, bind, ret, raise, get_contact, get_unit.
  intros H ->. repeat case_match; simplify_eq.
Qed.

Lemma validate_store (instance : option nat) (data : LeaseData)
  (s s' : Store) (r : result LeaseData) :
  validate instance data s = (s', r) -> s' = s.
Proof.
  unfold validate, bind, ret, raise, get_contact, get_unit.
  intros H. repeat case_match; simplify_eq; reflexivity.
Qed.

(** On an update the serializer reports a wrong tenant role itself, under
    the key of the field. *)
Lemma validate_instance_tenant_role (pk tid : nat) (data : LeaseData)
  (s : Store) (t : Contact.t) :
  d_tenant data = Some tid ->
  contacts s !! tid = Some t ->
  Contact.contact_type t <> Contact.TENANT ->
  validate (Some pk) data s
  = (s, Raise (ValidationError "tenant" msg_tenant_contact)).
Proof.
  intros Hd Ht Hty. unfold validate, bind, ret, raise, get_contact.
  rewrite Hd, Ht. rewrite bool_decide_eq_false_2 by assumption. reflexivity.
Qed.

(** A creation through the view that raises, in the serializer or in
    [Lease.save], leaves the store as it was. *)
Lemma LeaseViewSet_create_raise (l : Lease.t) (s s' : Store) (e : error) :
  LeaseViewSet_create l s = (s', Raise e) -> s' = s.
Proof.
  unfold LeaseViewSet_create, bind.
  destruct (validate None (full_data l) s) as [s1 [d|e1]] eqn:Hv;
    apply validate_store in Hv as ->.
  - intros H. apply Lease_save_inv in H as [(e' & _ & ->)|H]; [reflexivity|].
    destruct H as (? & ? & ? & ? & ? & ? & ? & ? & ? & ? & ?). discriminate.
  - intros [= <- _]. reflexivity.
Qed.

Lemma Lease_save_not_occupied (pk : option nat) (l : Lease.t) (s s' : Store)
  (e : error) :
  Lease_save pk l s = (s', Raise e) -> ~ AlreadyOccupied e.
Proof.
  rewrite Lease_save_eq. unfold AlreadyOccupied. intros H ->.
  repeat case_match; simplify_eq.
Qed.

(** C10. Updating a lease through the view never raises the occupancy
    error; and an update after which the lease has a TENANT, a LANDLORD and
    a unit that the landlord owns is written, whatever the status of that
    unit, OCCUPIED included. *)
Theorem LeaseViewSet_update_occupied (pk : nat) (data : LeaseData) (s : Store) :
  (forall s' e,
      LeaseViewSet_update pk data s = (s', Raise e) -> ~ AlreadyOccupied e) /\
  (forall inst t ll u,
      leases s !! pk = Some inst ->
      contacts s !! Lease.tenant (update_instance data inst) = Some t ->
      Contact.contact_type t = Contact.TENANT ->
      contacts s !! Lease.landlord (update_instance data inst) = Some ll ->
      Contact.contact_type ll = Contact.LANDLORD ->
      units s !! Lease.unit (update_instance data inst) = Some u ->
      Lease.landlord (update_instance data inst) = Unit.owner u ->
      exists s',
        LeaseViewSet_update pk data s = (s', Ok pk) /\
        leases s' !! pk = Some (update_instance data inst) /\
        units s' !! Lease.unit (update_instance data inst)
        = Some (Unit.set_status Unit.OCCUPIED u)).
Proof.
  split.
  - intros s' e. unfold LeaseViewSet_update.
    unfold bind at 1. unfold get_store.
    destruct (leases s !! pk) as [inst|]; [|intros [= <- <-]; discriminate].
    unfold bind.
    destruct (validate (Some pk) data s) as [s1 [d|e1]] eqn:Hv.
    + apply Lease_save_not_occupied.
    + intros [= <- <-]. eapply validate_instance_not_occupied, Hv.
  - intros inst t ll u Hi Ht Htt Hl Hlt Hu Hlo.
    unfold LeaseViewSet_update.
    unfold bind at 1. unfold get_store. rewrite Hi.
    unfold bind. rewrite validate_instance_ok.
    + rewrite Lease_save_eq, Ht, Hl, Hu.
      rewrite !decide_True by assumption. rewrite <- Hlo, Hl.
      eexists. split; [reflexivity|].
      unfold lease_written; simpl. rewrite !lookup_insert_eq. auto.
    + intros tid Hd. exists t. split; [|assumption].
      rewrite <- Ht. unfold update_instance; simpl. rewrite Hd. reflexivity.
    + intros lid Hd. exists ll. split; [|assumption].
      rewrite <- Hl. unfold update_instance; simpl. rewrite Hd. reflexivity.
    + intros lid uid Hdl Hdu. exists u.
      revert Hu Hlo. unfold update_instance; simpl. rewrite Hdl, Hdu. simpl.
      auto.
Qed.

Lemma LeaseViewSet_update_occupied_witness :
  (units store_two_units !! 2%nat
   = Some (Unit.set_status Unit.OCCUPIED unit_A2)) /\
  (exists s',
      LeaseViewSet_update 1 (patch_unit 2) store_two_units = (s', Ok 1%nat) /\
      leases s' !! 1%nat
      = Some (update_instance (patch_unit 2) test_lease) /\
      units s' !! 2%nat
      = Some (Unit.set_status Unit.OCCUPIED
                (Unit.set_status Unit.OCCUPIED unit_A2))) /\
  LeaseViewSet_update 1 (patch_tenant 1) store_two_units
  = (store_two_units, Raise (ValidationError "tenant" msg_tenant_contact)) /\
  ~ AlreadyOccupied (ValidationError "tenant" msg_tenant_contact).
Proof.
  split; [vm_compute; reflexivity|]. split.
  - destruct (LeaseViewSet_update_occupied 1 (patch_unit 2) store_two_units)
      as [_ Hok].
    apply (Hok test_lease jane john
               (Unit.set_status Unit.OCCUPIED unit_A2));
      vm_compute; reflexivity.
  - assert (H : LeaseViewSet_update 1 (patch_tenant 1) store_two_units
                = (store_two_units,
                   Raise (ValidationError "tenant" msg_tenant_contact)))
      by (vm_compute; reflexivity).
    split; [exact H|].
    destruct (LeaseViewSet_update_occupied 1 (patch_tenant 1) store_two_units)
      as [Hnever _].
    exact (Hnever _ _ H).
Defined.

(** ** The end date ([get_end_date]) *)

Lemma monthrange_bounds (y m : Z) :
  1 <= m <= 12 -> 28 <= monthrange y m <= 31.
Proof.
  intros Hm.
  assert (Hcases : m = 1 \/ m = 2 \/ m = 3 \/ m = 4 \/ m = 5 \/ m = 6 \/
                   m = 7 \/ m = 8 \/ m = 9 \/ m = 10 \/ m = 11 \/ m = 12)
    by lia.
  unfold monthrange.
  repeat (destruct Hcases as [->|Hcases]); try subst m; simpl;
    try destruct (isleap y); lia.
Qed.

Lemma relativedelta_months_nonneg (n : Z) :
  0 <= n -> relativedelta_months n = mkDelta (n / 12) (n mod 12).
Proof.
  intros Hn. unfold relativedelta_months, sign.
  rewrite Z.abs_eq by assumption.
  destruct (Z.gtb_spec n 11) as [Hbig|Hsmall].
  - destruct (Z.ltb_spec n 0); [lia|]. rewrite !Z.mul_1_r. reflexivity.
  - rewrite Z.div_small, Z.mod_small by lia. reflexivity.
Qed.

(** The year and month [relativedelta] reaches are those of the month
    count. *)
Lemma relativedelta_radd_endDate (d : date) (n : Z) :
  1 <= month d <= 12 -> 0 <= n ->
  relativedelta_radd (relativedelta_months n) d
  = date_new (year (endDate d n)) (month (endDate d n)) (day (endDate d n)).
Proof.
  intros Hm Hn. rewrite relativedelta_months_nonneg by assumption.
  unfold relativedelta_radd, endDate. cbn [rd_years rd_months year month day].
  set (k := 12 * year d + (month d - 1) + n).
  assert (Hdiv : n = 12 * (n / 12) + n mod 12) by (apply Z.div_mod; lia).
  assert (Hmod : 0 <= n mod 12 < 12) by (apply Z.mod_pos_bound; lia).
  assert (Hk : k = 12 * (k / 12) + k mod 12) by (apply Z.div_mod; lia).
  assert (Hkm : 0 <= k mod 12 < 12) by (apply Z.mod_pos_bound; lia).
  destruct (Z.eqb_spec (n mod 12) 0) as [Hz|Hnz].
  - assert (k / 12 = year d + n / 12 /\ k mod 12 + 1 = month d) as [-> ->]
      by (subst k; lia).
    rewrite Z.min_comm. reflexivity.
  - destruct (Z.gtb_spec (month d + n mod 12) 12) as [Hover|Hin].
    + assert (k / 12 = year d + n / 12 + 1 /\
              k mod 12 + 1 = month d + n mod 12 - 12) as [-> ->]
        by (subst k; lia).
      rewrite Z.min_comm. reflexivity.
    + destruct (Z.ltb_spec (month d + n mod 12) 1) as [Hunder|_]; [lia|].
      assert (k / 12 = year d + n / 12 /\
              k mod 12 + 1 = month d + n mod 12) as [-> ->]
        by (subst k; lia).
      rewrite Z.min_comm. reflexivity.
Qed.

Lemma endDate_fields (d : date) (n : Z) :
  valid_date d -> 0 <= n ->
  MINYEAR <= year (endDate d n) /\
  1 <= month (endDate d n) <= 12 /\
  1 <= day (endDate d n) <= monthrange (year (endDate d n)) (month (endDate d n)).
Proof.
  intros (Hy & Hm & Hd) Hn. unfold endDate, MINYEAR in *.
  cbn [year month day].
  set (k := 12 * year d + (month d - 1) + n).
  assert (Hk : k = 12 * (k / 12) + k mod 12) by (apply Z.div_mod; lia).
  assert (Hkm : 0 <= k mod 12 < 12) by (apply Z.mod_pos_bound; lia).
  assert (Hr := monthrange_bounds (k / 12) (k mod 12 + 1) ltac:(lia)).
  repeat split; lia.
Qed.

(** C7, as the specification words it, fails: a [date] holds no year
    beyond 9999, and no check upstream keeps a lease from running past
    it. *)
Lemma get_end_date_counterexample :
  valid_date (Date 2025 1 1) /\ 1 <= 100000 /\
  get_end_date (lease_from (Date 2025 1 1) 100000)
  = Raise (ValueError "year 10358 is out of range") /\
  get_end_date (lease_from (Date 2025 1 1) 100000)
  <> Ok (Some (endDate (Date 2025 1 1) 100000)).
Proof.
  split; [valid_date_by_computation|].
  split; [lia|]. split; [vm_compute; reflexivity|].
  vm_compute. discriminate.
Qed.

(** Once the month and the day are in range, it is the year that decides
    what the constructor does. *)
Lemma date_new_fields (y m d : Z) :
  1 <= m <= 12 ->
  1 <= d <= monthrange y m ->
  date_new y m d =
  if negb (fits_int y) then Raise OverflowError
  else if negb ((MINYEAR <=? y) && (y <=? MAXYEAR))
  then Raise (ValueError ("year " ++ str y ++ " is out of range")%string)
  else Ok (Date y m d).
Proof.
  intros Hm Hd. pose proof (monthrange_bounds y m Hm) as Hr.
  unfold date_new.
  assert (Hfm : fits_int m = true).
  { unfold fits_int, INT_MIN, INT_MAX. apply andb_true_intro.
    split; apply Z.leb_le; lia. }
  assert (Hfd : fits_int d = true).
  { unfold fits_int, INT_MIN, INT_MAX. apply andb_true_intro.
    split; apply Z.leb_le; lia. }
  rewrite Hfm, Hfd, !andb_true_r.
  destruct (fits_int y); cbn [negb]; [|reflexivity].
  destruct ((MINYEAR <=? y) && (y <=? MAXYEAR)); cbn [negb]; [|reflexivity].
  rewrite (proj2 (Z.leb_le _ _) (proj1 Hm)),
          (proj2 (Z.leb_le _ _) (proj2 Hm)). cbn [andb negb].
  rewrite (proj2 (Z.leb_le _ _) (proj1 Hd)),
          (proj2 (Z.leb_le _ _) (proj2 Hd)). reflexivity.
Qed.

(** C7, amended. For a start date and a duration of at least one month,
    [get_end_date] returns the start date moved on by that many calendar
    months, the day clamped to the last day of the month reached, as long
    as the year reached is at most 9999; beyond, it raises: [ValueError]
    while the year fits a C [int], [OverflowError] once it does not. *)
Theorem get_end_date_endDate (obj : Lease.t) (d : date) :
  Lease.start_date obj = Some d ->
  valid_date d ->
  1 <= Lease.duration obj ->
  if year (endDate d (Lease.duration obj)) <=? MAXYEAR
  then get_end_date obj = Ok (Some (endDate d (Lease.duration obj)))
  else if year (endDate d (Lease.duration obj)) <=? INT_MAX
  then get_end_date obj
       = Raise (ValueError ("year " ++
                            str (year (endDate d (Lease.duration obj))) ++
                            " is out of range")%string)
  else get_end_date obj = Raise OverflowError.
Proof.
  intros Hs Hv Hn. unfold get_end_date. rewrite Hs.
  rewrite relativedelta_radd_endDate by (unfold valid_date in Hv; lia).
  destruct (endDate_fields d (Lease.duration obj) Hv ltac:(lia))
    as (Hy & Hm & Hd).
  rewrite (date_new_fields _ _ _ Hm Hd).
  unfold fits_int, INT_MIN, INT_MAX, MINYEAR, MAXYEAR in *.
  destruct (Z.leb_spec (year (endDate d (Lease.duration obj))) 9999)
    as [Hle|Hgt].
  - rewrite (proj2 (Z.leb_le (-2147483648) _)) by lia.
    rewrite (proj2 (Z.leb_le _ 2147483647)) by lia.
    rewrite (proj2 (Z.leb_le 1 _)) by lia. cbn [andb negb].
    destruct (endDate d (Lease.duration obj)); reflexivity.
  - rewrite (proj2 (Z.leb_le (-2147483648) _)) by lia.
    rewrite (proj2 (Z.leb_le 1 _)) by lia. cbn [andb].
    destruct (Z.leb_spec (year (endDate d (Lease.duration obj))) 2147483647);
      cbn [negb]; reflexivity.
Qed.

Lemma valid_date_2025_01_31 : valid_date (Date 2025 1 31).
Proof. valid_date_by_computation. Defined.
Lemma valid_date_2024_01_31 : valid_date (Date 2024 1 31).
Proof. valid_date_by_computation. Defined.
Lemma valid_date_2025_01_01 : valid_date (Date 2025 1 1).
Proof. valid_date_by_computation. Defined.

Lemma get_end_date_endDate_witness :
  get_end_date (lease_from (Date 2025 1 31) 1) = Ok (Some (Date 2025 2 28)) /\
  get_end_date (lease_from (Date 2024 1 31) 1) = Ok (Some (Date 2024 2 29)) /\
  get_end_date (lease_from (Date 2025 1 1) 12) = Ok (Some (Date 2026 1 1)).
Proof.
  split; [|split].
  - exact (get_end_date_endDate (lease_from (Date 2025 1 31) 1) _ eq_refl
             valid_date_2025_01_31 ltac:(simpl; lia)).
  - exact (get_end_date_endDate (lease_from (Date 2024 1 31) 1) _ eq_refl
             valid_date_2024_01_31 ltac:(simpl; lia)).
  - exact (get_end_date_endDate (lease_from (Date 2025 1 1) 12) _ eq_refl
             valid_date_2025_01_01 ltac:(simpl; lia)).
Defined.

(** ** The dashboard ([DashboardView.list]) *)

(** *** Counting by status *)

Lemma group_find_None (st : Unit.UnitStatus) (groups : list (Unit.UnitStatus * Z)) :
  st ∉ map fst groups -> group_find st groups = None.
Proof.
  induction groups as [|[st' n] rest IH]; simpl; [reflexivity|].
  intros Hnotin. apply not_elem_of_cons in Hnotin as [Hne Hrest].
  rewrite decide_False by auto. auto.
Qed.

Lemma bump_keys (st st' : Unit.UnitStatus) (groups : list (Unit.UnitStatus * Z)) :
  st' ∈ map fst (bump st groups) -> st' = st \/ st' ∈ map fst groups.
Proof.
  induction groups as [|[st0 n] rest IH]; simpl.
  - intros Hin. apply list_elem_of_singleton in Hin. auto.
  - case_bool_decide as Heq; simpl; intros Hin;
      apply elem_of_cons in Hin as [->|Hin].
    + right. left.
    + right. right. assumption.
    + right. left.
    + destruct (IH Hin); [auto|]. right. right. assumption.
Qed.

Lemma bump_NoDup (st : Unit.UnitStatus) (groups : list (Unit.UnitStatus * Z)) :
  NoDup (map fst groups) -> NoDup (map fst (bump st groups)).
Proof.
  induction groups as [|[st0 n] rest IH]; simpl; intros Hnd.
  - apply NoDup_singleton.
  - apply NoDup_cons in Hnd as [Hnotin Hnd].
    case_bool_decide as Heq; simpl; apply NoDup_cons.
    + auto.
    + split; [|auto]. intros Hin.
      apply bump_keys in Hin as [->|Hin]; contradiction.
Qed.

Lemma bump_find (st st' : Unit.UnitStatus) (groups : list (Unit.UnitStatus * Z)) :
  default 0 (group_find st' (bump st groups))
  = default 0 (group_find st' groups) + (if decide (st = st') then 1 else 0).
Proof.
  induction groups as [|[st0 n] rest IH]; simpl.
  - repeat case_decide; simpl; congruence || lia.
  - case_bool_decide as Heq; simpl.
    + subst st0. repeat case_decide; simpl; congruence || lia.
    + destruct (decide (st0 = st')) as [->|Hne].
      * rewrite decide_False by auto. simpl. lia.
      * apply IH.
Qed.

Lemma dict_of_lookup (st : Unit.UnitStatus) (groups : list (Unit.UnitStatus * Z))
  (d : gmap Unit.UnitStatus Z) :
  NoDup (map fst groups) ->
  fold_left (fun d g => <[fst g := snd g]> d) groups d !! st
  = match group_find st groups with
    | Some n => Some n
    | None => d !! st
    end.
Proof.
  revert d. induction groups as [|[st0 n] rest IH]; intros d Hnd; simpl.
  - reflexivity.
  - apply NoDup_cons in Hnd as [Hnotin Hnd]. rewrite IH by assumption.
    destruct (decide (st0 = st)) as [->|Hne].
    + rewrite group_find_None by assumption. apply lookup_insert_eq.
    + destruct (group_find st rest); [reflexivity|].
      apply lookup_insert_ne. assumption.
Qed.

Lemma fold_bump (rows : list (nat * Unit.t)) (groups : list (Unit.UnitStatus * Z)) :
  NoDup (map fst groups) ->
  NoDup (map fst (fold_left (fun g row => bump (Unit.status (snd row)) g)
                            rows groups)) /\
  forall st,
    default 0 (group_find st
                 (fold_left (fun g row => bump (Unit.status (snd row)) g)
                            rows groups))
    = default 0 (group_find st groups) + count_status st rows.
Proof.
  revert groups. induction rows as [|row rows IH]; intros groups Hnd; simpl.
  - split; [assumption|]. intros st. unfold count_status; simpl. lia.
  - destruct (IH (bump (Unit.status (snd row)) groups)
                 (bump_NoDup _ _ Hnd)) as [Hnd' Hcount].
    split; [assumption|]. intros st. rewrite Hcount, bump_find.
    unfold count_status; simpl.
    destruct (decide (Unit.status (snd row) = st)) as [Heq|Hne].
    + rewrite bool_decide_eq_true_2 by assumption. simpl length. lia.
    + rewrite bool_decide_eq_false_2 by assumption. lia.
Qed.

(** The dictionary built from the grouped query holds, for each status, the
    number of units that have it; a status no unit has is absent and reads
    as 0. *)
Lemma dict_get_count (st : Unit.UnitStatus) (rows : list (nat * Unit.t)) :
  dict_get (dict_of (values_status_count rows)) st = count_status st rows.
Proof.
  unfold dict_get, dict_of, values_status_count.
  destruct (fold_bump rows [] (NoDup_nil_2 : NoDup (map fst (@nil (Unit.UnitStatus * Z))))) as [Hnd Hcount].
  rewrite dict_of_lookup by assumption.
  specialize (Hcount st). simpl in Hcount.
  destruct (group_find st _) as [n|]; simpl in *; [lia|].
  rewrite lookup_empty. simpl. lia.
Qed.

Lemma count_status_total (rows : list (nat * Unit.t)) :
  count_status Unit.VACANT rows + count_status Unit.OCCUPIED rows
  + count_status Unit.MAINTENANCE rows = Z.of_nat (length rows).
Proof.
  unfold count_status. induction rows as [|[k u] rows IH]; simpl; [reflexivity|].
  destruct (Unit.status u); simpl; lia.
Qed.

(** *** The rate *)

Lemma int_truediv_Ok (a b : Z) :
  b <> 0 -> exists q, int_truediv a b = Ok q.
Proof. intros Hb. destruct a, b; simpl; eauto; contradiction. Qed.

Lemma occupancy_rate_Ok (occupied total : Z) :
  exists rate, occupancy_rate occupied total = Ok rate.
Proof.
  unfold occupancy_rate. destruct (Z.eqb_spec total 0) as [->|Hne]; [eauto|].
  destruct (int_truediv_Ok occupied total Hne) as [q ->]. eauto.
Qed.

(** *** The unit status summary *)

(** C8, as the specification words it, fails: both branches of the rate go
    through the same two-place format, so with no units at all the rate
    reads 0.00%. *)
Lemma units_summary_zero_counterexample :
  total_units (unit_counts empty_store) = 0 /\
  exists r,
    units_summary (unit_counts empty_store) = Ok r /\
    us_occupancy_rate r = "0.00%" /\
    us_occupancy_rate r <> "0%".
Proof.
  split; [reflexivity|]. eexists. split; [vm_compute; reflexivity|].
  split; [reflexivity|discriminate].
Qed.

(** C8, amended. The unit status summary the dashboard computes never
    raises; it holds the number of units, the number of units of each
    status, and as rate the quotient of occupied units by units, times 100,
    in the two-place format followed by a percent sign. With no units the
    rate is "0.00%" and nothing is divided; with two units occupied out of
    three it is "66.67%". *)
Theorem units_summary_correct (s : Store) :
  exists rate,
    units_summary (unit_counts s)
    = Ok (mkUnitsSummary
            (Z.of_nat (size (units s)))
            (count_status Unit.VACANT (Unit_objects_all s))
            (count_status Unit.OCCUPIED (Unit_objects_all s))
            (count_status Unit.MAINTENANCE (Unit_objects_all s))
            rate) /\
    occupancy_rate (count_status Unit.OCCUPIED (Unit_objects_all s))
                   (Z.of_nat (size (units s))) = Ok rate /\
    (size (units s) = 0%nat -> rate = "0.00%") /\
    (size (units s) = 3%nat ->
     count_status Unit.OCCUPIED (Unit_objects_all s) = 2 ->
     rate = "66.67%").
Proof.
  unfold units_summary, unit_counts.
  cbn [total_units vacant_units occupied_units maintenance_units].
  rewrite !dict_get_count.
  assert (Hlen : length (Unit_objects_all s) = size (units s))
    by apply length_map_to_list.
  rewrite Hlen.
  destruct (occupancy_rate_Ok
              (count_status Unit.OCCUPIED (Unit_objects_all s))
              (Z.of_nat (size (units s)))) as [rate Hrate].
  exists rate. rewrite Hrate. split; [reflexivity|]. split; [reflexivity|].
  split.
  - intros Hsize. rewrite Hsize in Hrate.
    vm_compute in Hrate. congruence.
  - intros Hsize Hocc. rewrite Hsize, Hocc in Hrate.
    vm_compute in Hrate. congruence.
Qed.

Lemma units_summary_correct_witness :
  units_summary (unit_counts three_units)
  = Ok (mkUnitsSummary 3 1 2 0 "66.67%") /\
  units_summary (unit_counts empty_store)
  = Ok (mkUnitsSummary 0 0 0 0 "0.00%").
Proof.
  split.
  - destruct (units_summary_correct three_units)
      as (rate & Hsum & _ & _ & Hrate).
    rewrite Hsum, (Hrate eq_refl eq_refl). reflexivity.
  - destruct (units_summary_correct empty_store)
      as (rate & Hsum & _ & Hrate & _).
    rewrite Hsum, (Hrate eq_refl). reflexivity.
Defined.

(** *** The landlord summary *)

(** A keyword that names no field of [Contact] raises when the query is
    built, whatever the store holds. *)
Lemma Contact_objects_filter_unknown (keyword value : string) (s : Store) :
  Contact_text_field keyword = None ->
  existsb (String.eqb keyword) Contact_key_fields = false ->
  existsb (String.eqb keyword) Contact_datetime_fields = false ->
  Contact_objects_filter keyword value s = (s, Raise (FieldError keyword)).
Proof.
  intros Htext Hkey Hdatetime. unfold Contact_objects_filter.
  rewrite Htext, Hkey, Hdatetime. reflexivity.
Qed.

(** C9. The landlord query names a field, [type], that [Contact] does not
    have: on every store the view raises [FieldError] when it builds the
    query, and returns no summary at all. *)
Theorem DashboardView_list_FieldError (s : Store) :
  DashboardView_list s = (s, Raise (FieldError "type")).
Proof.
  unfold DashboardView_list, bind, get_store.
  rewrite Contact_objects_filter_unknown by reflexivity.
  reflexivity.
Qed.

Lemma ContactType_value_eqb (t t' : Contact.ContactType) :
  String.eqb (ContactType_value t) (ContactType_value t') = bool_decide (t = t').
Proof. destruct t, t'; reflexivity. Qed.

Lemma landlords_by_contact_type_eq (s : Store) :
  landlords_by_contact_type s
  = (s, Ok (List.map
              (fun row => (fst row, Contact.name (snd row),
                           units_count s (fst row)))
              (List.filter
                 (fun row => bool_decide
                               (Contact.contact_type (snd row) = Contact.LANDLORD))
                 (map_to_list (contacts s))))).
Proof.
  unfold landlords_by_contact_type, Contact_objects_filter, bind, get_store, ret.
  simpl. unfold annotate_units_count. do 3 f_equal.
  apply List.filter_ext. intros row.
  apply (ContactType_value_eqb _ Contact.LANDLORD).
Qed.

(** * Further properties *)

(** ** What a lease write touches *)

Lemma LeaseViewSet_update_inv (pk : nat) (data : LeaseData) (s s' : Store)
  (r : result nat) :
  LeaseViewSet_update pk data s = (s', r) ->
  (s' = s /\ exists e, r = Raise e) \/
  (exists inst,
      leases s !! pk = Some inst /\
      validate (Some pk) data s = (s, Ok data) /\
      Lease_save (Some pk) (update_instance data inst) s = (s', r)).
Proof.
  unfold LeaseViewSet_update. unfold bind at 1. unfold get_store.
  destruct (leases s !! pk) as [inst|]; [|intros [= <- <-]; eauto].
  unfold bind.
  destruct (validate (Some pk) data s) as [s1 [d|e]] eqn:Hv.
  - pose proof (validate_store _ _ _ _ _ Hv) as ->.
    assert (d = data) as ->.
    { revert Hv. unfold validate, bind, ret, raise, get_contact, get_unit.
      intros Hv. repeat case_match; simplify_eq; reflexivity. }
    intros Hsave. right. eauto.
  - pose proof (validate_store _ _ _ _ _ Hv) as ->.
    intros [= <- <-]. eauto.
Qed.



(** X3. No lease write frees a unit: a unit that is OCCUPIED keeps its row,
    whatever lease is written and whether the write succeeds. In
    particular an update that moves a lease to another unit leaves the unit
    it came from OCCUPIED. *)
Theorem LeaseViewSet_update_keeps_occupied (pk : nat) (data : LeaseData)
  (s s' : Store) (r : result nat) (k : nat) (u : Unit.t) :
  LeaseViewSet_update pk data s = (s', r) ->
  units s !! k = Some u ->
  Unit.status u = Unit.OCCUPIED ->
  units s' !! k = Some u.
Proof.
  intros H Hu Hst.
  apply LeaseViewSet_update_inv in H as [[-> _]|(inst & _ & _ & H)];
    [assumption|].
  apply Lease_save_inv in H as [(e & _ & ->)|H]; [assumption|].
  destruct H as (t & ll & u' & _ & _ & _ & _ & Hu' & _ & -> & _).
  unfold lease_written; simpl.
  destruct (decide (k = Lease.unit (update_instance data inst))) as [->|Hk].
  - rewrite lookup_insert_eq. rewrite Hu in Hu'. injection Hu' as <-.
    rewrite <- Hst, set_status_same. reflexivity.
  - rewrite lookup_insert_ne by auto. assumption.
Qed.

Lemma LeaseViewSet_update_keeps_occupied_witness :
  LeaseViewSet_update 1 (patch_unit 2) store_two_units
  = (fst (LeaseViewSet_update 1 (patch_unit 2) store_two_units), Ok 1%nat) /\
  Lease.unit <$> leases (fst (LeaseViewSet_update 1 (patch_unit 2) store_two_units))
                   !! 1%nat = Some 2%nat /\
  units (fst (LeaseViewSet_update 1 (patch_unit 2) store_two_units)) !! 1%nat
  = Some (Unit.set_status Unit.OCCUPIED unit_A1).
Proof.
  assert (H : LeaseViewSet_update 1 (patch_unit 2) store_two_units
              = (fst (LeaseViewSet_update 1 (patch_unit 2) store_two_units),
                 Ok 1%nat))
    by (vm_compute; reflexivity).
  split; [exact H|]. split; [vm_compute; reflexivity|].
  apply (LeaseViewSet_update_keeps_occupied 1 (patch_unit 2) store_two_units
           _ _ 1%nat _ H); vm_compute; reflexivity.
Defined.

(** X4. A lease write keeps referential integrity: if every foreign key
    in the store pointed at a row before, every one does after, the keys of
    the lease written included. *)
Theorem Lease_save_refs_ok (pk : option nat) (l : Lease.t) (s s' : Store)
  (r : result nat) :
  Lease_save pk l s = (s', r) -> refs_ok s -> refs_ok s'.
Proof.
  intros H [Hunits Hleases].
  apply Lease_save_inv in H as [(e & _ & ->)|H]; [split; assumption|].
  destruct H as (t & ll & u & Ht & _ & Hl & _ & Hu & Hlo & -> & _).
  assert (Hkeep : forall k, is_Some (units s !! k) ->
            is_Some (<[Lease.unit l := Unit.set_status Unit.OCCUPIED u]>
                       (units s) !! k)).
  { intros k Hk. destruct (decide (k = Lease.unit l)) as [->|Hne].
    - rewrite lookup_insert_eq. eauto.
    - rewrite lookup_insert_ne by auto. assumption. }
  split; unfold lease_written; simpl.
  - intros k u'. destruct (decide (k = Lease.unit l)) as [->|Hne].
    + rewrite lookup_insert_eq. intros [= <-].
      destruct u; simpl in *. rewrite <- Hlo, Hl. eauto.
    + rewrite lookup_insert_ne by auto. apply Hunits.
  - intros k l'.
    destruct (decide (k = snd (Model_save pk l (leases s)))) as [->|Hne].
    + rewrite Model_save_lookup. intros [= <-].
      split; [apply Hkeep; eauto|]. split; eauto.
    + rewrite Model_save_other by assumption. intros Hl'.
      destruct (Hleases k l' Hl') as (Hu' & Ht' & Hll').
      split; [apply Hkeep; assumption|]. split; assumption.
Qed.

Lemma test_store_refs_ok : refs_ok test_store.
Proof.
  split.
  - intros k u. unfold test_store; simpl.
    destruct (decide (k = 1%nat)) as [->|Hk].
    + rewrite lookup_insert_eq. intros [= <-]. eexists. reflexivity.
    + rewrite lookup_insert_ne by auto. rewrite lookup_empty. discriminate.
  - intros k l. unfold test_store; simpl. rewrite lookup_empty. discriminate.
Defined.

Lemma Lease_save_refs_ok_witness : refs_ok leased_store.
Proof.
  apply (Lease_save_refs_ok None test_lease test_store leased_store (Ok 1%nat));
    [vm_compute; reflexivity|exact test_store_refs_ok].
Defined.



(** ** What a unit write touches *)

(** X6. A unit write leaves contacts and leases alone, whatever they say
    about the unit; when it raises it leaves the units alone as well; when
    it succeeds it changes no unit but the one it writes, and a created
    unit gets a positive key that was free. *)
Theorem Unit_save_frame (pk : option nat) (u : Unit.t) (s s' : Store)
  (r : result nat) :
  Unit_save pk u s = (s', r) ->
  contacts s' = contacts s /\
  leases s' = leases s /\
  (forall e, r = Raise e -> s' = s) /\
  (forall k, r = Ok k ->
     (forall k', k' <> k -> units s' !! k' = units s !! k') /\
     (pk = None -> k <> 0%nat /\ units s !! k = None) /\
     (forall k0, pk = Some k0 -> k = k0)).
Proof.
  rewrite Unit_save_eq. intros H.
  assert (Hraise : forall e, (s', r) = (s, Raise e) ->
            contacts s' = contacts s /\ leases s' = leases s /\
            (forall e, r = Raise e -> s' = s) /\
            (forall k, r = Ok k ->
               (forall k', k' <> k -> units s' !! k' = units s !! k') /\
               (pk = None -> k <> 0%nat /\ units s !! k = None) /\
               (forall k0, pk = Some k0 -> k = k0))).
  { intros e [= -> ->]. repeat split; auto; discriminate. }
  destruct (contacts s !! Unit.owner u) as [o|]; [|eapply Hraise; eauto].
  case_decide; [|eapply Hraise; eauto].
  clear Hraise. injection H as <- <-. simpl.
  split; [reflexivity|]. split; [reflexivity|]. split; [discriminate|].
  intros k [= <-]. split; [|split].
  - intros k' Hk'. apply Model_save_other. assumption.
  - intros ->. simpl. split; [|apply next_pk_fresh].
    unfold next_pk.
    pose proof (is_fresh ({[0%nat]} ∪ dom (units s))) as Hf.
    intros Hz. apply Hf. rewrite Hz.
    apply elem_of_union_l, elem_of_singleton. reflexivity.
  - intros k0 ->. reflexivity.
Qed.

Lemma Unit_save_frame_witness :
  Unit_save None unit_A2 leased_store
  = (fst (Unit_save None unit_A2 leased_store), Ok 2%nat) /\
  leases (fst (Unit_save None unit_A2 leased_store)) = leases leased_store /\
  units leased_store !! 2%nat = None.
Proof.
  assert (H : Unit_save None unit_A2 leased_store
              = (fst (Unit_save None unit_A2 leased_store), Ok 2%nat))
    by (vm_compute; reflexivity).
  split; [exact H|].
  destruct (Unit_save_frame None unit_A2 leased_store _ _ H)
    as (_ & Hl & _ & Hok).
  split; [exact Hl|].
  destruct (Hok 2%nat eq_refl) as (_ & Hnew & _).
  exact (proj2 (Hnew eq_refl)).
Defined.

(** ** The serializer and the views on leases *)

Lemma validate_create_eq (l : Lease.t) (s : Store) :
  validate None (full_data l) s =
  match units s !! Lease.unit l with
  | None => (s, Raise (DoesNotExist "Unit"))
  | Some u =>
    if decide (Unit.status u = Unit.OCCUPIED)
    then (s, Raise (ValidationError "unit" msg_unit_occupied))
    else
      match contacts s !! Lease.tenant l with
      | None => (s, Raise (DoesNotExist "Contact"))
      | Some t =>
        if decide (Contact.contact_type t = Contact.TENANT) then
          match contacts s !! Lease.landlord l with
          | None => (s, Raise (DoesNotExist "Contact"))
          | Some ll =>
            if decide (Contact.contact_type ll = Contact.LANDLORD) then
              match contacts s !! Unit.owner u with
              | None => (s, Raise (DoesNotExist "Contact"))
              | Some _ =>
                if decide (Lease.landlord l = Unit.owner u)
                then (s, Ok (full_data l))
                else (s, Raise (ValidationError "landlord"
                                                msg_landlord_unit_owner))
              end
            else (s, Raise (ValidationError "landlord" msg_landlord_contact))
          end
        else (s, Raise (ValidationError "tenant" msg_tenant_contact))
      end
  end.
Proof.
  unfold validate, bind, ret, raise, get_contact, get_unit. simpl.
  destruct (units s !! Lease.unit l) as [u|] eqn:Hu; [|reflexivity].
  destruct (decide (Unit.status u = Unit.OCCUPIED)) as [Hst|Hst];
    [rewrite bool_decide_eq_true_2 by assumption; reflexivity
    |rewrite bool_decide_eq_false_2 by assumption].
  destruct (contacts s !! Lease.tenant l) as [t|] eqn:Ht; [|reflexivity].
  destruct (decide (Contact.contact_type t = Contact.TENANT)) as [Htt|Htt];
    [rewrite bool_decide_eq_true_2 by assumption
    |rewrite bool_decide_eq_false_2 by assumption; reflexivity].
  simpl.
  destruct (contacts s !! Lease.landlord l) as [ll|] eqn:Hl; [|reflexivity].
  destruct (decide (Contact.contact_type ll = Contact.LANDLORD)) as [Hlt|Hlt];
    [rewrite bool_decide_eq_true_2 by assumption
    |rewrite bool_decide_eq_false_2 by assumption; reflexivity].
  simpl. rewrite Hu.
  destruct (contacts s !! Unit.owner u) as [o|] eqn:Ho; [|reflexivity].
  destruct (decide (Lease.landlord l = Unit.owner u)) as [Hlo|Hlo];
    [rewrite bool_decide_eq_true_2 by assumption
    |rewrite bool_decide_eq_false_2 by assumption]; reflexivity.
Qed.

(** X7. [validate] only reads: whatever the instance, the data and the
    outcome, the store is the one it was given, and the data it returns are
    the data it was given. *)
Theorem validate_read_only (instance : option nat) (data : LeaseData)
  (s s' : Store) (r : result LeaseData) :
  validate instance data s = (s', r) ->
  s' = s /\ forall d, r = Ok d -> d = data.
Proof.
  unfold validate, bind, ret, raise, get_contact, get_unit.
  intros H. repeat case_match; simplify_eq; split; congruence.
Qed.

Lemma validate_read_only_witness :
  validate None (full_data test_lease) test_store
  = (test_store, Ok (full_data test_lease)) /\
  test_store = test_store /\
  forall d, Ok (full_data test_lease) = Ok d -> d = full_data test_lease.
Proof.
  assert (H : validate None (full_data test_lease) test_store
              = (test_store, Ok (full_data test_lease)))
    by (vm_compute; reflexivity).
  split; [exact H|].
  exact (validate_read_only None (full_data test_lease) test_store _ _ H).
Defined.

(** X8. On the data of a creation the checks of the serializer and those
    of [Lease.save] agree. Data that [validate] accepts never make
    [Lease.save] raise one of its [ValueError]s; data that [validate]
    refuses for another reason than occupancy are refused by [Lease.save]
    as well, by the check of the same name and before any write. The
    occupancy check is the only one the serializer has alone. *)
Theorem validate_agrees_with_Lease_save (l : Lease.t) (s : Store) :
  (forall s1 d,
      validate None (full_data l) s = (s1, Ok d) ->
      forall s2 msg, Lease_save None l s <> (s2, Raise (ValueError msg))) /\
  (forall s1 e,
      validate None (full_data l) s = (s1, Raise e) ->
      ~ AlreadyOccupied e ->
      exists e',
        Lease_save None l s = (s, Raise e') /\
        (e = ValidationError "tenant" msg_tenant_contact ->
         e' = ValueError msg_tenant_type) /\
        (e = ValidationError "landlord" msg_landlord_contact ->
         e' = ValueError msg_landlord_type) /\
        (e = ValidationError "landlord" msg_landlord_unit_owner ->
         e' = ValueError msg_landlord_owner)).
Proof.
  rewrite validate_create_eq, Lease_save_eq. unfold AlreadyOccupied. split.
  - intros s1 d H s2 msg.
    repeat case_match; simplify_eq; discriminate.
  - intros s1 e H Hocc.
    unfold msg_tenant_contact, msg_landlord_contact, msg_landlord_unit_owner,
      msg_unit_occupied in *.
    repeat case_match; simplify_eq;
      try (exfalso; apply Hocc; reflexivity);
      eexists; (split; [reflexivity|]);
      repeat split; intros; congruence.
Qed.

Lemma validate_agrees_with_Lease_save_witness :
  validate None (full_data lease_jane_landlord) test_store
  = (test_store, Raise (ValidationError "landlord" msg_landlord_contact)) /\
  Lease_save None lease_jane_landlord test_store
  = (test_store, Raise (ValueError msg_landlord_type)) /\
  Lease_save None test_lease test_store
  <> (test_store, Raise (ValueError msg_tenant_type)).
Proof.
  assert (Hv : validate None (full_data lease_jane_landlord) test_store
               = (test_store,
                  Raise (ValidationError "landlord" msg_landlord_contact)))
    by (vm_compute; reflexivity).
  split; [exact Hv|]. split.
  - destruct (validate_agrees_with_Lease_save lease_jane_landlord test_store)
      as [_ Hraise].
    destruct (Hraise _ _ Hv ltac:(unfold AlreadyOccupied; discriminate))
      as (e' & Hsave & _ & Hkind & _).
    rewrite Hsave, (Hkind eq_refl). reflexivity.
  - destruct (validate_agrees_with_Lease_save test_lease test_store)
      as [Hok _].
    apply (Hok test_store (full_data test_lease)).
    vm_compute; reflexivity.
Defined.

(** X9. Once a lease is written on a unit, [validate] refuses every
    creation that names that unit, with the occupancy message and before it
    looks at the tenant or the landlord. *)
Theorem validate_create_after_lease (pk : option nat) (l : Lease.t)
  (s s1 : Store) (k : nat) (data : LeaseData) :
  Lease_save pk l s = (s1, Ok k) ->
  d_unit data = Some (Lease.unit l) ->
  validate None data s1
  = (s1, Raise (ValidationError "unit" msg_unit_occupied)).
Proof.
  intros H Hunit. apply Lease_save_inv in H.
  destruct H as [(e & ? & _)|H]; [discriminate|].
  destruct H as (t & ll & u & _ & _ & _ & _ & _ & _ & -> & _).
  unfold validate. rewrite Hunit.
  unfold bind at 1. unfold bind at 1. unfold bind at 1. unfold bind at 1.
  unfold bind at 1. unfold bind at 1.
  unfold get_unit at 1. unfold lease_written at 1. cbn [units].
  rewrite lookup_insert_eq.
  rewrite bool_decide_eq_true_2 by (destruct u; reflexivity). reflexivity.
Qed.

Lemma validate_create_after_lease_witness :
  Lease_save None test_lease test_store = (leased_store, Ok 1%nat) /\
  validate None (full_data lease_jane_landlord) leased_store
  = (leased_store, Raise (ValidationError "unit" msg_unit_occupied)).
Proof.
  assert (H : Lease_save None test_lease test_store = (leased_store, Ok 1%nat))
    by (vm_compute; reflexivity).
  split; [exact H|].
  exact (validate_create_after_lease None test_lease test_store leased_store
           1%nat (full_data lease_jane_landlord) H eq_refl).
Defined.

(** X10. A partial update that sends the unit but not the landlord passes
    the serializer, whose ownership check needs both: when the unit sent
    belongs to someone else than the landlord of the lease, it is
    [Lease.save] that refuses it, with its [ValueError], and the store
    stays as it was. *)
Theorem LeaseViewSet_update_unit_only (pk uid : nat) (data : LeaseData)
  (s : Store) (inst : Lease.t) (t ll o : Contact.t) (u : Unit.t) :
  leases s !! pk = Some inst ->
  d_unit data = Some uid ->
  d_tenant data = None ->
  d_landlord data = None ->
  contacts s !! Lease.tenant inst = Some t ->
  Contact.contact_type t = Contact.TENANT ->
  contacts s !! Lease.landlord inst = Some ll ->
  Contact.contact_type ll = Contact.LANDLORD ->
  units s !! uid = Some u ->
  contacts s !! Unit.owner u = Some o ->
  Lease.landlord inst <> Unit.owner u ->
  validate (Some pk) data s = (s, Ok data) /\
  LeaseViewSet_update pk data s = (s, Raise (ValueError msg_landlord_owner)).
Proof.
  intros Hi Hdu Hdt Hdl Ht Htt Hl Hlt Hu Ho Hne.
  assert (Hv : validate (Some pk) data s = (s, Ok data)).
  { apply validate_instance_ok; intros; congruence. }
  split; [exact Hv|].
  unfold LeaseViewSet_update. unfold bind at 1. unfold get_store. rewrite Hi.
  unfold bind. rewrite Hv, Lease_save_eq.
  unfold update_instance; simpl. rewrite Hdu, Hdt, Hdl; simpl.
  rewrite Ht, Hl, Hu, Ho.
  rewrite !decide_True by assumption.
  rewrite decide_False by assumption. reflexivity.
Qed.

(** Unit B7 belongs to Bob. *)
Lemma LeaseViewSet_update_unit_only_witness :
  let s := mkStore (contacts store_with_bob)
                   (<[7%nat := Unit.mk "B7" Unit.HOUSE "7 Bob Rd" 0
                                       Unit.VACANT 3]> (units leased_store))
                   (leases leased_store) in
  validate (Some 1%nat) (patch_unit 7) s = (s, Ok (patch_unit 7)) /\
  LeaseViewSet_update 1 (patch_unit 7) s
  = (s, Raise (ValueError msg_landlord_owner)).
Proof.
  intros s.
  apply (LeaseViewSet_update_unit_only 1 7 (patch_unit 7) s test_lease
           jane john bob
           (Unit.mk "B7" Unit.HOUSE "7 Bob Rd" 0 Unit.VACANT 3));
    try (vm_compute; reflexivity).
  discriminate.
Defined.

(** ** The end date, beyond durations of a month or more *)

Lemma relativedelta_months_nonpos (n : Z) :
  n <= 0 ->
  relativedelta_months n = mkDelta (- ((- n) / 12)) (- ((- n) mod 12)).
Proof.
  intros Hn. unfold relativedelta_months, sign.
  rewrite Z.abs_neq by assumption.
  destruct (Z.gtb_spec (- n) 11) as [Hbig|Hsmall].
  - destruct (Z.ltb_spec n 0); [|lia].
    replace (n * -1) with (- n) by lia.
    f_equal; lia.
  - rewrite Z.div_small, Z.mod_small by lia. f_equal; lia.
Qed.

Lemma relativedelta_radd_endDate_nonpos (d : date) (n : Z) :
  1 <= month d <= 12 -> n <= 0 ->
  relativedelta_radd (relativedelta_months n) d
  = date_new (year (endDate d n)) (month (endDate d n)) (day (endDate d n)).
Proof.
  intros Hm Hn. rewrite relativedelta_months_nonpos by assumption.
  unfold relativedelta_radd, endDate. cbn [rd_years rd_months year month day].
  set (k := 12 * year d + (month d - 1) + n).
  assert (Hdiv : - n = 12 * ((- n) / 12) + (- n) mod 12)
    by (apply Z.div_mod; lia).
  assert (Hmod : 0 <= (- n) mod 12 < 12) by (apply Z.mod_pos_bound; lia).
  assert (Hk : k = 12 * (k / 12) + k mod 12) by (apply Z.div_mod; lia).
  assert (Hkm : 0 <= k mod 12 < 12) by (apply Z.mod_pos_bound; lia).
  destruct (Z.eqb_spec (- ((- n) mod 12)) 0) as [Hz|Hnz].
  - assert (k / 12 = year d + - ((- n) / 12) /\ k mod 12 + 1 = month d)
      as [-> ->] by (subst k; lia).
    rewrite Z.min_comm. reflexivity.
  - destruct (Z.gtb_spec (month d + - ((- n) mod 12)) 12) as [Hover|_];
      [lia|].
    destruct (Z.ltb_spec (month d + - ((- n) mod 12)) 1) as [Hunder|Hin].
    + assert (k / 12 = year d + - ((- n) / 12) - 1 /\
              k mod 12 + 1 = month d + - ((- n) mod 12) + 12) as [-> ->]
        by (subst k; lia).
      rewrite Z.min_comm. reflexivity.
    + assert (k / 12 = year d + - ((- n) / 12) /\
              k mod 12 + 1 = month d + - ((- n) mod 12)) as [-> ->]
        by (subst k; lia).
      rewrite Z.min_comm. reflexivity.
Qed.

Lemma endDate_month_day (d : date) (n : Z) :
  valid_date d ->
  1 <= month (endDate d n) <= 12 /\
  1 <= day (endDate d n) <= monthrange (year (endDate d n)) (month (endDate d n)).
Proof.
  intros (Hy & Hm & Hd). unfold endDate. cbn [year month day].
  set (k := 12 * year d + (month d - 1) + n).
  assert (Hkm : 0 <= k mod 12 < 12) by (apply Z.mod_pos_bound; lia).
  assert (Hr := monthrange_bounds (k / 12) (k mod 12 + 1) ltac:(lia)).
  repeat split; lia.
Qed.

(** X11. [get_end_date] does not ask for a duration of a month or more,
    and [Lease.save] does not either: for every integer duration, zero and
    negative ones included, it moves the start date by that many calendar
    months, backwards for a negative one, clamping the day, as long as the
    year reached is one of 1..9999. Outside it raises: [ValueError] while
    the year fits a C [int], [OverflowError] once it does not. A duration
    of zero gives the start date back. *)
Theorem get_end_date_any_duration (obj : Lease.t) (d : date) :
  Lease.start_date obj = Some d ->
  valid_date d ->
  (if negb (fits_int (year (endDate d (Lease.duration obj))))
   then get_end_date obj = Raise OverflowError
   else if (MINYEAR <=? year (endDate d (Lease.duration obj))) &&
           (year (endDate d (Lease.duration obj)) <=? MAXYEAR)
   then get_end_date obj = Ok (Some (endDate d (Lease.duration obj)))
   else get_end_date obj
        = Raise (ValueError ("year " ++
                             str (year (endDate d (Lease.duration obj))) ++
                             " is out of range")%string)) /\
  (Lease.duration obj = 0 -> get_end_date obj = Ok (Some d)).
Proof.
  intros Hs Hv.
  assert (Hradd : relativedelta_radd (relativedelta_months (Lease.duration obj)) d
                  = date_new (year (endDate d (Lease.duration obj)))
                             (month (endDate d (Lease.duration obj)))
                             (day (endDate d (Lease.duration obj)))).
  { destruct (Z.le_ge_cases 0 (Lease.duration obj)).
    - apply relativedelta_radd_endDate; [unfold valid_date in Hv; lia|lia].
    - apply relativedelta_radd_endDate_nonpos;
        [unfold valid_date in Hv; lia|lia]. }
  destruct (endDate_month_day d (Lease.duration obj) Hv) as (Hm & Hd).
  assert (Hget : get_end_date obj =
            if negb (fits_int (year (endDate d (Lease.duration obj))))
            then Raise OverflowError
            else if (MINYEAR <=? year (endDate d (Lease.duration obj))) &&
                    (year (endDate d (Lease.duration obj)) <=? MAXYEAR)
            then Ok (Some (endDate d (Lease.duration obj)))
            else Raise (ValueError
                          ("year " ++
                           str (year (endDate d (Lease.duration obj))) ++
                           " is out of range")%string)).
  { unfold get_end_date. rewrite Hs, Hradd, (date_new_fields _ _ _ Hm Hd).
    destruct (fits_int _); cbn [negb]; [|reflexivity].
    destruct ((MINYEAR <=? _) && (_ <=? MAXYEAR)); cbn [negb];
      [|reflexivity].
    destruct (endDate d (Lease.duration obj)); reflexivity. }
  split.
  - rewrite Hget.
    destruct (fits_int _); cbn [negb]; [|reflexivity].
    destruct ((MINYEAR <=? _) && (_ <=? MAXYEAR)); reflexivity.
  - intros Hzero. rewrite Hget, Hzero.
    assert (Hsame : endDate d 0 = d).
    { destruct Hv as (Hy & Hmd & Hdd). unfold endDate. destruct d as [y m dd].
      cbn [year month day] in *.
      assert (Hk : (12 * y + (m - 1) + 0) / 12 = y /\
                   (12 * y + (m - 1) + 0) mod 12 + 1 = m).
      { pose proof (Z.div_mod (12 * y + (m - 1) + 0) 12 ltac:(lia)).
        pose proof (Z.mod_pos_bound (12 * y + (m - 1) + 0) 12 ltac:(lia)).
        lia. }
      destruct Hk as [-> ->]. f_equal. lia. }
    rewrite Hsame.
    destruct Hv as ((Hy1 & Hy2) & _).
    assert (Hfit : fits_int (year d) = true).
    { unfold fits_int, INT_MIN, INT_MAX, MINYEAR, MAXYEAR in *.
      apply andb_true_intro. split; apply Z.leb_le; lia. }
    rewrite Hfit, (proj2 (Z.leb_le _ _) Hy1), (proj2 (Z.leb_le _ _) Hy2).
    reflexivity.
Qed.

Lemma get_end_date_any_duration_witness :
  get_end_date (lease_from (Date 2025 3 31) (-1)) = Ok (Some (Date 2025 2 28)) /\
  get_end_date (lease_from (Date 2025 1 31) (-14)) = Ok (Some (Date 2023 11 30)) /\
  get_end_date (lease_from (Date 2025 1 1) (-24300))
  = Raise (ValueError "year 0 is out of range") /\
  get_end_date (lease_from (Date 2025 1 1) 100000000000) = Raise OverflowError /\
  get_end_date (lease_from (Date 2024 1 31) 0) = Ok (Some (Date 2024 1 31)).
Proof.
  split; [|split; [|split; [|split]]].
  - refine (proj1 (get_end_date_any_duration
                     (lease_from (Date 2025 3 31) (-1)) _ eq_refl _)).
    valid_date_by_computation.
  - refine (proj1 (get_end_date_any_duration
                     (lease_from (Date 2025 1 31) (-14)) _ eq_refl _)).
    valid_date_by_computation.
  - exact (proj1 (get_end_date_any_duration
                    (lease_from (Date 2025 1 1) (-24300)) _ eq_refl
                    valid_date_2025_01_01)).
  - exact (proj1 (get_end_date_any_duration
                    (lease_from (Date 2025 1 1) 100000000000) _ eq_refl
                    valid_date_2025_01_01)).
  - exact (proj2 (get_end_date_any_duration
                    (lease_from (Date 2024 1 31) 0) _ eq_refl
                    valid_date_2024_01_31) eq_refl).
Defined.

Lemma date_new_Ok (y m d : Z) (e : date) :
  date_new y m d = Ok e ->
  e = Date y m d /\ MINYEAR <= y <= MAXYEAR /\ 1 <= m <= 12 /\
  1 <= d <= monthrange y m.
Proof.
  unfold date_new.
  destruct (fits_int y && fits_int m && fits_int d); cbn [negb];
    [|discriminate].
  destruct (Z.leb_spec MINYEAR y), (Z.leb_spec y MAXYEAR); cbn [andb negb];
    try discriminate.
  destruct (Z.leb_spec 1 m), (Z.leb_spec m 12); cbn [andb negb];
    try discriminate.
  destruct (Z.leb_spec 1 d), (Z.leb_spec d (monthrange y m)); cbn [andb negb];
    try discriminate.
  intros [= <-]. auto.
Qed.

Lemma get_end_date_Ok_inv (obj : Lease.t) (d e : date) :
  Lease.start_date obj = Some d ->
  valid_date d ->
  get_end_date obj = Ok (Some e) ->
  e = endDate d (Lease.duration obj) /\ valid_date e.
Proof.
  intros Hs Hv. unfold get_end_date. rewrite Hs.
  assert (Hradd : relativedelta_radd (relativedelta_months (Lease.duration obj)) d
                  = date_new (year (endDate d (Lease.duration obj)))
                             (month (endDate d (Lease.duration obj)))
                             (day (endDate d (Lease.duration obj)))).
  { destruct (Z.le_ge_cases 0 (Lease.duration obj)).
    - apply relativedelta_radd_endDate; [unfold valid_date in Hv; lia|lia].
    - apply relativedelta_radd_endDate_nonpos;
        [unfold valid_date in Hv; lia|lia]. }
  rewrite Hradd.
  destruct (date_new _ _ _) as [e'|err] eqn:Hnew; [|discriminate].
  intros [= <-]. apply date_new_Ok in Hnew as (-> & Hy & Hm & Hd).
  split.
  - destruct (endDate d (Lease.duration obj)); reflexivity.
  - unfold valid_date. cbn [year month day]. auto.
Qed.

(** X12. When [get_end_date] returns a date for a lease of a month or
    more, that date is a date of the calendar, it lies in a later month
    than the start, exactly as many months later as the lease lasts, its
    day of the month is never later than that of the start date and is the
    same whenever the lease starts on or before the 28th. *)
Theorem get_end_date_after_start (obj : Lease.t) (d e : date) :
  Lease.start_date obj = Some d ->
  valid_date d ->
  1 <= Lease.duration obj ->
  get_end_date obj = Ok (Some e) ->
  valid_date e /\
  12 * (year e - year d) + (month e - month d) = Lease.duration obj /\
  (year d < year e \/ (year d = year e /\ month d < month e)) /\
  day e <= day d /\
  (day d <= 28 -> day e = day d).
Proof.
  intros Hs Hv Hn He.
  destruct (get_end_date_Ok_inv obj d e Hs Hv He) as [-> Hve].
  split; [exact Hve|].
  destruct Hv as (Hy & Hm & Hd).
  destruct Hve as (_ & Hme & _). revert Hme.
  unfold endDate. cbn [year month day].
  set (k := 12 * year d + (month d - 1) + Lease.duration obj).
  intros Hme.
  assert (Hk : k = 12 * (k / 12) + k mod 12) by (apply Z.div_mod; lia).
  assert (Hkm : 0 <= k mod 12 < 12) by (apply Z.mod_pos_bound; lia).
  assert (Hr := monthrange_bounds (k / 12) (k mod 12 + 1) ltac:(lia)).
  subst k. repeat split; lia.
Qed.

Lemma get_end_date_after_start_witness :
  get_end_date (lease_from (Date 2024 1 31) 1) = Ok (Some (Date 2024 2 29)) /\
  valid_date (Date 2024 2 29) /\
  12 * (2024 - 2024) + (2 - 1) = 1 /\
  29 <= 31.
Proof.
  assert (H : get_end_date (lease_from (Date 2024 1 31) 1)
              = Ok (Some (Date 2024 2 29))) by (vm_compute; reflexivity).
  split; [exact H|].
  destruct (get_end_date_after_start (lease_from (Date 2024 1 31) 1)
              (Date 2024 1 31) (Date 2024 2 29) eq_refl
              valid_date_2024_01_31 ltac:(simpl; lia) H)
    as (Hv & Hmonths & _ & Hday & _).
  split; [exact Hv|]. split; [exact Hmonths|exact Hday].
Defined.

(** X13. A lease of a whole number of years ends on the same month and
    day that many years later; only a lease that starts on the 29th of
    February ends on the 28th when the year reached is no leap year. *)
Theorem get_end_date_whole_years (obj : Lease.t) (d : date) (years : Z) :
  Lease.start_date obj = Some d ->
  valid_date d ->
  Lease.duration obj = 12 * years ->
  MINYEAR <= year d + years <= MAXYEAR ->
  get_end_date obj
  = Ok (Some (Date (year d + years) (month d)
                   (if (month d =? 2) && (day d =? 29) &&
                       negb (isleap (year d + years))
                    then 28 else day d))).
Proof.
  intros Hs Hv Hdur Hrange.
  assert (Hradd : relativedelta_radd (relativedelta_months (Lease.duration obj)) d
                  = date_new (year (endDate d (Lease.duration obj)))
                             (month (endDate d (Lease.duration obj)))
                             (day (endDate d (Lease.duration obj)))).
  { destruct (Z.le_ge_cases 0 (Lease.duration obj)).
    - apply relativedelta_radd_endDate; [unfold valid_date in Hv; lia|lia].
    - apply relativedelta_radd_endDate_nonpos;
        [unfold valid_date in Hv; lia|lia]. }
  unfold get_end_date. rewrite Hs, Hradd, Hdur.
  destruct Hv as (Hy & Hm & Hd).
  unfold endDate. cbn [year month day].
  assert (Hk : (12 * year d + (month d - 1) + 12 * years) / 12 = year d + years /\
               (12 * year d + (month d - 1) + 12 * years) mod 12 + 1 = month d).
  { pose proof (Z.div_mod (12 * year d + (month d - 1) + 12 * years) 12
                  ltac:(lia)).
    pose proof (Z.mod_pos_bound (12 * year d + (month d - 1) + 12 * years) 12
                  ltac:(lia)).
    lia. }
  destruct Hk as [-> ->].
  assert (Hday : Z.min (day d) (monthrange (year d + years) (month d))
                 = if (month d =? 2) && (day d =? 29) &&
                      negb (isleap (year d + years))
                   then 28 else day d).
  { revert Hd. unfold monthrange.
    destruct (Z.eqb_spec (month d) 2) as [H2|H2]; cbn [andb].
    - rewrite H2. simpl nth.
      destruct (isleap (year d)), (isleap (year d + years)),
        (Z.eqb_spec (day d) 29); cbn [andb negb]; lia.
    - cbn [andb]. lia. }
  rewrite Hday.
  assert (Hbound : 1 <= (if (month d =? 2) && (day d =? 29) &&
                            negb (isleap (year d + years))
                         then 28 else day d)
                   <= monthrange (year d + years) (month d)).
  { rewrite <- Hday.
    pose proof (monthrange_bounds (year d + years) (month d) Hm). lia. }
  rewrite (date_new_fields _ _ _ Hm Hbound).
  assert (Hfit : fits_int (year d + years) = true).
  { unfold fits_int, INT_MIN, INT_MAX, MINYEAR, MAXYEAR in *.
    apply andb_true_intro. split; apply Z.leb_le; lia. }
  rewrite Hfit, (proj2 (Z.leb_le _ _) (proj1 Hrange)),
          (proj2 (Z.leb_le _ _) (proj2 Hrange)).
  reflexivity.
Qed.

Lemma valid_date_2024_02_29 : valid_date (Date 2024 2 29).
Proof. valid_date_by_computation. Defined.

Lemma get_end_date_whole_years_witness :
  get_end_date (lease_from (Date 2024 2 29) 12) = Ok (Some (Date 2025 2 28)) /\
  get_end_date (lease_from (Date 2024 2 29) 48) = Ok (Some (Date 2028 2 29)).
Proof.
  split.
  - refine (get_end_date_whole_years (lease_from (Date 2024 2 29) 12) _ 1
              eq_refl valid_date_2024_02_29 eq_refl _).
    split; apply Z.leb_le; vm_compute; reflexivity.
  - refine (get_end_date_whole_years (lease_from (Date 2024 2 29) 48) _ 4
              eq_refl valid_date_2024_02_29 eq_refl _).
    split; apply Z.leb_le; vm_compute; reflexivity.
Defined.

(** ** The dashboard counts *)

Lemma count_status_Permutation (st : Unit.UnitStatus)
  (rows rows' : list (nat * Unit.t)) :
  rows ≡ₚ rows' -> count_status st rows = count_status st rows'.
Proof.
  unfold count_status. intros Hp. f_equal.
  induction Hp as [|row rows rows' _ IH|row row' rows|rows rows' rows'' _ IH1 _ IH2];
    simpl.
  - reflexivity.
  - destruct (bool_decide _); simpl; congruence.
  - destruct (bool_decide _), (bool_decide _); reflexivity.
  - congruence.
Qed.

Lemma count_status_cons (st : Unit.UnitStatus) (k : nat) (u : Unit.t)
  (rows : list (nat * Unit.t)) :
  count_status st ((k, u) :: rows)
  = (if decide (Unit.status u = st) then 1 else 0) + count_status st rows.
Proof.
  unfold count_status. simpl.
  destruct (decide (Unit.status u = st)).
  - rewrite bool_decide_eq_true_2 by assumption. simpl length. lia.
  - rewrite bool_decide_eq_false_2 by assumption. lia.
Qed.

(** Replacing the row of a unit moves one unit from the count of its old
    status to the count of its new one. *)
Lemma count_status_insert (st : Unit.UnitStatus) (m : gmap nat Unit.t)
  (k : nat) (u u' : Unit.t) :
  m !! k = Some u ->
  count_status st (map_to_list (<[k := u']> m))
  = count_status st (map_to_list m)
    - (if decide (Unit.status u = st) then 1 else 0)
    + (if decide (Unit.status u' = st) then 1 else 0).
Proof.
  intros Hk.
  rewrite <- (insert_delete_eq m k u').
  rewrite (count_status_Permutation st _ _
             (map_to_list_insert (delete k m) k u' (lookup_delete_eq m k))).
  rewrite <- (insert_delete_id m k u Hk) at 2.
  rewrite (count_status_Permutation st _ _
             (map_to_list_insert (delete k m) k u (lookup_delete_eq m k))).
  rewrite !count_status_cons. lia.
Qed.

Lemma unit_counts_eq (s : Store) :
  unit_counts s
  = mkCounts (Z.of_nat (size (units s)))
             (count_status Unit.VACANT (Unit_objects_all s))
             (count_status Unit.OCCUPIED (Unit_objects_all s))
             (count_status Unit.MAINTENANCE (Unit_objects_all s)).
Proof.
  unfold unit_counts. rewrite !dict_get_count.
  assert (Hlen : length (Unit_objects_all s) = size (units s))
    by apply length_map_to_list.
  rewrite Hlen. reflexivity.
Qed.

(** X14. The counts of the dashboard add up: the vacant, the occupied and
    the units under maintenance together are all the units, and none of the
    three counts is negative or exceeds the total. *)
Theorem unit_counts_add_up (s : Store) :
  vacant_units (unit_counts s) + occupied_units (unit_counts s)
  + maintenance_units (unit_counts s) = total_units (unit_counts s) /\
  0 <= vacant_units (unit_counts s) <= total_units (unit_counts s) /\
  0 <= occupied_units (unit_counts s) <= total_units (unit_counts s) /\
  0 <= maintenance_units (unit_counts s) <= total_units (unit_counts s).
Proof.
  rewrite unit_counts_eq. cbn [total_units vacant_units occupied_units
                                maintenance_units].
  pose proof (count_status_total (Unit_objects_all s)) as Hsum.
  assert (Hlen : length (Unit_objects_all s) = size (units s))
    by apply length_map_to_list.
  rewrite Hlen in Hsum.
  assert (Hpos : forall st, 0 <= count_status st (Unit_objects_all s))
    by (intros st; unfold count_status; lia).
  pose proof (Hpos Unit.VACANT). pose proof (Hpos Unit.OCCUPIED).
  pose proof (Hpos Unit.MAINTENANCE). lia.
Qed.

(** X15. What a lease write that succeeds does to the counts. Written on
    a unit that was OCCUPIED, it leaves all four counts as they were;
    written on a unit that was not, it adds one to the occupied units,
    takes one from the count of the status the unit had, and leaves the
    total alone. *)
Theorem Lease_save_unit_counts (pk : option nat) (l : Lease.t) (s s' : Store)
  (k : nat) (u : Unit.t) :
  Lease_save pk l s = (s', Ok k) ->
  units s !! Lease.unit l = Some u ->
  total_units (unit_counts s') = total_units (unit_counts s) /\
  (Unit.status u = Unit.OCCUPIED -> unit_counts s' = unit_counts s) /\
  (Unit.status u = Unit.VACANT ->
     occupied_units (unit_counts s') = occupied_units (unit_counts s) + 1 /\
     vacant_units (unit_counts s') = vacant_units (unit_counts s) - 1 /\
     maintenance_units (unit_counts s') = maintenance_units (unit_counts s)) /\
  (Unit.status u = Unit.MAINTENANCE ->
     occupied_units (unit_counts s') = occupied_units (unit_counts s) + 1 /\
     maintenance_units (unit_counts s')
     = maintenance_units (unit_counts s) - 1 /\
     vacant_units (unit_counts s') = vacant_units (unit_counts s)).
Proof.
  intros H Hu'. apply Lease_save_inv in H as [(e & ? & _)|H]; [discriminate|].
  destruct H as (t & ll & u0 & _ & _ & _ & _ & Hu & _ & -> & _).
  rewrite Hu in Hu'. injection Hu' as ->.
  rewrite !unit_counts_eq.
  cbn [total_units vacant_units occupied_units maintenance_units].
  unfold Unit_objects_all, lease_written. cbn [units].
  assert (Hsize : size (<[Lease.unit l := Unit.set_status Unit.OCCUPIED u]>
                          (units s)) = size (units s)).
  { rewrite <- (insert_delete_eq (units s)).
    rewrite map_size_insert_None by apply lookup_delete_eq.
    rewrite <- (insert_delete_id (units s) (Lease.unit l) u Hu) at 2.
    rewrite map_size_insert_None by apply lookup_delete_eq. reflexivity. }
  rewrite Hsize.
  rewrite !(count_status_insert _ (units s) (Lease.unit l) u _ Hu).
  assert (Hocc : Unit.status (Unit.set_status Unit.OCCUPIED u) = Unit.OCCUPIED)
    by (destruct u; reflexivity).
  rewrite Hocc.
  split; [reflexivity|].
  split; [|split]; intros Hst; rewrite Hst; simpl.
  - f_equal; lia.
  - repeat split; lia.
  - repeat split; lia.
Qed.

Lemma Lease_save_unit_counts_witness :
  Lease_save None test_lease test_store = (leased_store, Ok 1%nat) /\
  unit_counts test_store = mkCounts 1 1 0 0 /\
  occupied_units (unit_counts leased_store)
  = occupied_units (unit_counts test_store) + 1 /\
  vacant_units (unit_counts leased_store)
  = vacant_units (unit_counts test_store) - 1.
Proof.
  assert (H : Lease_save None test_lease test_store = (leased_store, Ok 1%nat))
    by (vm_compute; reflexivity).
  split; [exact H|]. split; [vm_compute; reflexivity|].
  destruct (Lease_save_unit_counts None test_lease test_store _ _ unit_A1
              H eq_refl) as (_ & _ & Hvacant & _).
  destruct (Hvacant eq_refl) as (Hocc & Hvac & _).
  split; [exact Hocc|exact Hvac].
Defined.

(** ** The rate at its two ends *)

(** A positive integer divided by itself is the double 1.0. *)
Lemma SFdiv_same (p : positive) :
  SFdiv prec emax (S754_finite false p 0) (S754_finite false p 0)
  = S754_finite false 4503599627370496 (-52).
Proof.
  unfold SFdiv, SFdiv_core_binary.
  replace (Zdigits2 (Z.pos p) + 0 - (Zdigits2 (Z.pos p) + 0)) with 0 by lia.
  change (Z.min (fexp prec emax 0) (0 - 0)) with (-53).
  change (0 - 0 - -53) with 53.
  cbv iota beta.
  rewrite Z.shiftl_mul_pow2 by lia.
  assert (H : Z.div_eucl (Z.pos p * 2 ^ 53) (Z.pos p) = (2 ^ 53, 0)).
  { pose proof (Z.div_eucl_eq (Z.pos p * 2 ^ 53) (Z.pos p) ltac:(lia)) as He.
    pose proof (Z.mod_pos_bound (Z.pos p * 2 ^ 53) (Z.pos p) ltac:(lia)) as Hb.
    unfold Z.modulo in Hb.
    destruct (Z.div_eucl (Z.pos p * 2 ^ 53) (Z.pos p)) as [q r].
    assert (q = 2 ^ 53) by nia. subst q. f_equal. lia. }
  rewrite H.
  assert (Hloc : new_location (Z.pos p) 0 = loc_Exact).
  { unfold new_location. destruct (Z.even (Z.pos p)); reflexivity. }
  rewrite Hloc. vm_compute. reflexivity.
Qed.

Lemma occupancy_rate_none (total : Z) :
  0 <= total -> occupancy_rate 0 total = Ok "0.00%".
Proof.
  intros Htotal. unfold occupancy_rate.
  destruct (Z.eqb_spec total 0) as [->|Hne]; [vm_compute; reflexivity|].
  destruct total as [|p|p]; [contradiction| |lia].
  vm_compute. reflexivity.
Qed.

Lemma occupancy_rate_all (total : Z) :
  0 < total -> occupancy_rate total total = Ok "100.00%".
Proof.
  intros Htotal. unfold occupancy_rate.
  destruct total as [|p|p]; [lia| |lia].
  cbn [Z.eqb int_truediv]. rewrite SFdiv_same. vm_compute. reflexivity.
Qed.

(** X16. The summary of the units never raises, whatever the store; with
    no unit occupied its rate reads 0.00%, and with units and all of them
    occupied it reads 100.00%. *)
Theorem units_summary_extremes (s : Store) :
  exists summary,
    units_summary (unit_counts s) = Ok summary /\
    (us_occupied summary = 0 -> us_occupancy_rate summary = "0.00%") /\
    (0 < us_total summary -> us_occupied summary = us_total summary ->
     us_occupancy_rate summary = "100.00%").
Proof.
  unfold units_summary.
  destruct (occupancy_rate_Ok (occupied_units (unit_counts s))
                              (total_units (unit_counts s))) as [rate Hrate].
  rewrite Hrate. eexists. split; [reflexivity|].
  cbn [us_occupied us_total us_occupancy_rate].
  split.
  - intros Hnone. rewrite Hnone, occupancy_rate_none in Hrate.
    + congruence.
    + unfold unit_counts. cbn [total_units]. lia.
  - intros Hpos Hall. rewrite Hall, occupancy_rate_all in Hrate by assumption.
    congruence.
Qed.

Lemma units_summary_extremes_witness :
  units_summary (unit_counts test_store)
  = Ok (mkUnitsSummary 1 1 0 0 "0.00%") /\
  units_summary (unit_counts leased_store)
  = Ok (mkUnitsSummary 1 0 1 0 "100.00%").
Proof.
  split.
  - destruct (units_summary_extremes test_store) as (summary & Hs & Hnone & _).
    assert (Hv : units_summary (unit_counts test_store)
                 = Ok (mkUnitsSummary 1 1 0 0 (us_occupancy_rate summary))).
    { rewrite Hs. f_equal. vm_compute in Hs. injection Hs as <-. reflexivity. }
    rewrite Hv. rewrite Hnone; [reflexivity|].
    vm_compute in Hs. injection Hs as <-. reflexivity.
  - destruct (units_summary_extremes leased_store) as (summary & Hs & _ & Hall).
    assert (Hv : units_summary (unit_counts leased_store)
                 = Ok (mkUnitsSummary 1 0 1 0 (us_occupancy_rate summary))).
    { rewrite Hs. f_equal. vm_compute in Hs. injection Hs as <-. reflexivity. }
    rewrite Hv. rewrite Hall; [reflexivity| |].
    + vm_compute in Hs. injection Hs as <-. reflexivity.
    + vm_compute in Hs. injection Hs as <-. reflexivity.
Defined.

(** ** The filtered list actions *)

Lemma filter_elem_of {A} (f : A -> bool) (l : list A) (x : A) :
  x ∈ List.filter f l <-> x ∈ l /\ f x = true.
Proof. rewrite !list_elem_of_In. apply filter_In. Qed.

(** X17. The rows [landlords] and [tenants] answer with are stored
    contacts of the type asked for, whatever page the paginator cuts;
    without pagination they are all of them, so that every stored contact
    is listed by exactly one of the two actions. *)
Theorem ContactViewSet_by_type_rows
  (order_by_name : list (nat * Contact.t) -> list (nat * Contact.t))
  (paginate_queryset : forall A : Type, list A -> option (list A))
  (s : Store) :
  (forall rows, order_by_name rows ≡ₚ rows) ->
  (forall A (rows page : list A),
      paginate_queryset A rows = Some page -> page ⊆ rows) ->
  (forall ty k c,
      (k, c) ∈ response_rows
                 (ContactViewSet_by_type order_by_name paginate_queryset ty s) ->
      contacts s !! k = Some c /\ Contact.contact_type c = ty) /\
  ((forall A rows, paginate_queryset A rows = None) ->
   forall k c,
     contacts s !! k = Some c ->
     ((k, c) ∈ response_rows
                 (ContactViewSet_landlords order_by_name paginate_queryset s) <->
      Contact.contact_type c = Contact.LANDLORD) /\
     ((k, c) ∈ response_rows
                 (ContactViewSet_tenants order_by_name paginate_queryset s) <->
      Contact.contact_type c = Contact.TENANT)).
Proof.
  intros Horder Hpage.
  assert (Hfilter : forall ty k c,
            (k, c) ∈ List.filter
                       (fun row => bool_decide
                                     (Contact.contact_type (snd row) = ty))
                       (ContactViewSet_queryset order_by_name s) <->
            contacts s !! k = Some c /\ Contact.contact_type c = ty).
  { intros ty k c. rewrite filter_elem_of. unfold ContactViewSet_queryset.
    rewrite (Horder _), elem_of_map_to_list. simpl.
    rewrite bool_decide_eq_true. reflexivity. }
  split.
  - intros ty k c. unfold ContactViewSet_by_type.
    destruct (paginate_queryset _ _) as [page|] eqn:Hp; simpl.
    + intros Hin. apply Hfilter. eapply Hpage; eassumption.
    + apply Hfilter.
  - intros Hnone k c Hk.
    unfold ContactViewSet_landlords, ContactViewSet_tenants,
      ContactViewSet_by_type.
    rewrite !Hnone. simpl. rewrite !Hfilter. tauto.
Qed.

Lemma first_page_subseteq (A : Type) (rows page : list A) :
  first_page A rows = Some page -> page ⊆ rows.
Proof.
  intros [= <-] x Hx. apply elem_of_take in Hx as (i & Hi & _).
  eapply list_elem_of_lookup_2; eassumption.
Defined.

Lemma ContactViewSet_by_type_rows_witness :
  (forall k c,
      (k, c) ∈ response_rows
                 (ContactViewSet_landlords (fun rows => rows) first_page
                                           test_store) ->
      contacts test_store !! k = Some c /\
      Contact.contact_type c = Contact.LANDLORD) /\
  ((1%nat, john) ∈ response_rows
                     (ContactViewSet_landlords (fun rows => rows) no_pagination
                                               test_store)).
Proof.
  split.
  - destruct (ContactViewSet_by_type_rows (fun rows => rows) first_page
                test_store (fun rows => reflexivity rows) first_page_subseteq)
      as [Hrows _].
    exact (Hrows Contact.LANDLORD).
  - destruct (ContactViewSet_by_type_rows (fun rows => rows) no_pagination
                test_store (fun rows => reflexivity rows)
                (fun A rows page H => ltac:(discriminate H)))
      as [_ Hall].
    apply (Hall (fun _ _ => eq_refl) 1%nat john eq_refl). reflexivity.
Defined.

Lemma serialize_many_units (s : Store) (rows : list (nat * Unit.t)) :
  (forall row, row ∈ rows -> is_Some (contacts s !! Unit.owner (snd row))) ->
  exists data,
    serialize_many UnitSerializer_data rows s = (s, Ok data) /\
    Forall2 (renders s) rows data.
Proof.
  induction rows as [|row rows IH]; intros Hown.
  - exists []. split; [reflexivity|constructor].
  - destruct (Hown row ltac:(left)) as [o Ho].
    destruct IH as (data & Hdata & Hall).
    { intros row' Hin. apply Hown. right. assumption. }
    eexists (_ :: data). split.
    + cbn [serialize_many]. unfold bind at 1.
      unfold UnitSerializer_data at 1. unfold bind at 1.
      unfold get_contact. rewrite Ho.
      unfold ret at 1. unfold bind at 1. rewrite Hdata. reflexivity.
    + constructor; [|assumption].
      unfold renders; simpl. repeat split; eauto.
Qed.

(** X18. In a store where every unit has its owner, [vacant] and
    [occupied] never raise and leave the store alone; every row of the
    answer renders a stored unit of the status asked for, with the label of
    that status and the details of its owner, whatever page the paginator
    cuts; and without pagination every unit of that status is rendered. *)
Theorem UnitViewSet_by_status_rows
  (order_by_unit_number : list (nat * Unit.t) -> list (nat * Unit.t))
  (paginate_queryset : forall A : Type, list A -> option (list A))
  (st : Unit.UnitStatus) (s : Store) :
  (forall rows, order_by_unit_number rows ≡ₚ rows) ->
  (forall A (rows page : list A),
      paginate_queryset A rows = Some page -> page ⊆ rows) ->
  refs_ok s ->
  exists response,
    UnitViewSet_by_status order_by_unit_number paginate_queryset st s
    = (s, Ok response) /\
    (forall d, d ∈ response_rows response ->
       ud_status d = st /\
       ud_status_display d = UnitStatus_display st /\
       exists u, units s !! ud_id d = Some u /\ renders s (ud_id d, u) d) /\
    ((forall A rows, paginate_queryset A rows = None) ->
     forall k u, units s !! k = Some u -> Unit.status u = st ->
       exists d, d ∈ response_rows response /\ renders s (k, u) d).
Proof.
  intros Horder Hpage [Howners _].
  set (rows := List.filter
                 (fun row => bool_decide (Unit.status (snd row) = st))
                 (UnitViewSet_queryset order_by_unit_number s)).
  assert (Hrows : forall k u, (k, u) ∈ rows <->
                              units s !! k = Some u /\ Unit.status u = st).
  { intros k u. unfold rows. rewrite filter_elem_of.
    unfold UnitViewSet_queryset.
    rewrite (Horder _), elem_of_map_to_list. simpl.
    rewrite bool_decide_eq_true. reflexivity. }
  assert (Hsel : forall sel : list (nat * Unit.t), sel ⊆ rows ->
            exists data,
              serialize_many UnitSerializer_data sel s = (s, Ok data) /\
              Forall2 (renders s) sel data /\
              forall d, d ∈ data ->
                ud_status d = st /\
                ud_status_display d = UnitStatus_display st /\
                exists u, units s !! ud_id d = Some u /\
                          renders s (ud_id d, u) d).
  { intros sel Hsub.
    destruct (serialize_many_units s sel) as (data & Hdata & Hall).
    { intros [k u] Hin. apply Hsub, Hrows in Hin as [Hk _].
      simpl. eapply Howners, Hk. }
    exists data. split; [assumption|]. split; [assumption|].
    intros d Hd.
    destruct (proj1 (list_elem_of_lookup _ _) Hd) as [i Hi].
    destruct (Forall2_lookup_r _ _ _ _ _ Hall Hi) as ([k u] & Hrow & Hren).
    apply list_elem_of_lookup_2, Hsub, Hrows in Hrow as [Hk Hst].
    pose proof Hren as (Hid & _ & Hs & Hsd & _). simpl in *.
    rewrite Hs, Hsd, Hst, Hid.
    repeat split. exists u. split; [assumption|].
    rewrite <- Hid. destruct Hren as (? & ? & ? & ? & ? & ?).
    unfold renders. simpl. rewrite Hid. repeat split; assumption. }
  unfold UnitViewSet_by_status. unfold bind at 1. unfold get_store.
  fold rows.
  destruct (paginate_queryset _ rows) as [page|] eqn:Hp.
  - destruct (Hsel page (Hpage _ _ _ Hp)) as (data & Hdata & _ & Hprops).
    exists (PaginatedResponse data). unfold bind, ret. rewrite Hdata.
    split; [reflexivity|]. split; [exact Hprops|].
    intros Hnone. rewrite Hnone in Hp. discriminate.
  - destruct (Hsel rows (fun x H => H)) as (data & Hdata & Hall & Hprops).
    exists (Response data). unfold bind, ret. rewrite Hdata.
    split; [reflexivity|]. split; [exact Hprops|].
    intros _ k u Hk Hst.
    assert (Hin : (k, u) ∈ rows) by (apply Hrows; auto).
    destruct (proj1 (list_elem_of_lookup _ _) Hin) as [i Hi].
    destruct (Forall2_lookup_l _ _ _ _ _ Hall Hi) as (d & Hd & Hren).
    exists d. split; [|assumption].
    simpl. eapply list_elem_of_lookup_2; eassumption.
Qed.

Lemma UnitViewSet_by_status_rows_witness :
  exists response,
    UnitViewSet_vacant (fun rows => rows) first_page test_store
    = (test_store, Ok response) /\
    forall d, d ∈ response_rows response ->
      ud_status d = Unit.VACANT /\
      ud_status_display d = "Vacant" /\
      exists u, units test_store !! ud_id d = Some u /\
                renders test_store (ud_id d, u) d.
Proof.
  destruct (UnitViewSet_by_status_rows (fun rows => rows) first_page
              Unit.VACANT test_store (fun rows => reflexivity rows)
              first_page_subseteq test_store_refs_ok)
    as (response & Heq & Hrows & _).
  exists response. split; [exact Heq|exact Hrows].
Defined.
